(** * gs-optimize: a shallow embedding of [gs-optimize.py]

    The script shrinks PDF files with Ghostscript: [optimize_file] runs the
    compressor on one file and keeps the smaller of source and output,
    [optimize_folder] does so for every PDF of a directory and prints the
    totals.  This development embeds the script function by function and
    proves the properties of its specification.

    Conventions of the embedding.
    - Python integers are [Z]; Python floats are IEEE binary64 values,
      carried by their exact rational value ([Q]) and rounded to nearest,
      ties to even, after every operation.
    - The file system is a finite map from paths to file contents; every
      call into the operating system is recorded in a trace.
    - A computation is a state transformer that ends in a value, a Python
      exception or [sys.exit]. *)

From Stdlib Require Import ZArith QArith Qround Qabs Qpower Lia Lqa.
From Stdlib Require Import String Ascii List Permutation.
From Stdlib Require Import DecimalString.
From Stdlib Require PrimFloat FloatOps Uint63.
From stdpp Require Import base option gmap strings list.

Open Scope Z_scope.
Open Scope string_scope.

(* ===================================================================== *)
(** * Part I: the program *)
(* ===================================================================== *)

(** ** Python strings *)

Fixpoint startswith (s p : string) : bool :=
  match p, s with
  | EmptyString, _ => true
  | String c p', String d s' => if Ascii.eqb c d then startswith s' p' else false
  | String _ _, EmptyString => false
  end.

Definition string_rev (s : string) : string :=
  string_of_list_ascii (List.rev (list_ascii_of_string s)).

Definition endswith (s p : string) : bool :=
  startswith (string_rev s) (string_rev p).

(** [sep.join(parts)] *)
Fixpoint str_join (sep : string) (parts : list string) : string :=
  match parts with
  | [] => EmptyString
  | [p] => p
  | p :: rest => p ++ sep ++ str_join sep rest
  end.

(** ** Outcomes of a Python computation *)

Inductive exn :=
  | ZeroDivisionError
  | OverflowError
  | FileNotFoundError (path : string)
  | FileExistsError (path : string)
  | NotADirectoryError (path : string).

(** The argument of [sys.exit]. *)
Inductive exit_arg :=
  | ExitCode (n : Z)
  | ExitMsg (msg : string).

Inductive outcome (A : Type) :=
  | Ok (a : A)
  | Raise (e : exn)
  | Exit (x : exit_arg).
Arguments Ok {A} a.
Arguments Raise {A} e.
Arguments Exit {A} x.

(** The status the interpreter ends with on [sys.exit(x)]: an integer is the
    status, any other object is printed to the error stream and the status
    is 1. *)
Definition exit_status (x : exit_arg) : Z :=
  match x with
  | ExitCode n => n
  | ExitMsg _ => 1
  end.

Definition exit_diagnostic (x : exit_arg) : option string :=
  match x with
  | ExitCode _ => None
  | ExitMsg m => Some m
  end.

(** Pure computations that may raise. *)
Definition obind {A B} (m : outcome A) (f : A -> outcome B) : outcome B :=
  match m with
  | Ok a => f a
  | Raise e => Raise e
  | Exit x => Exit x
  end.

(** ** Floating point: IEEE binary64, round to nearest, ties to even

    A finite float is carried by its exact rational value; every operation
    rounds the exact result.  The two zeros are not told apart: the script
    only divides, subtracts from 1 and multiplies by 100 values that come
    from non-negative sizes, and never gets to see the sign of a zero. *)

Definition pow2 (e : Z) : Q := Qpower 2 e.

(** Round half to even, to an integer. *)
Definition rne (q : Q) : Z :=
  let f := Qfloor q in
  match Qcompare (q - inject_Z f) (1 # 2) with
  | Lt => f
  | Gt => f + 1
  | Eq => if Z.even f then f else f + 1
  end.

(** [Qlog2 q] is the integer [l] with [2^l <= q < 2^(l+1)], for [0 < q]. *)
Definition Qlog2 (q : Q) : Z :=
  let l := Z.log2 (Qnum q) - Z.log2 (Zpos (Qden q)) in
  if Qle_bool (pow2 l) q then l else l - 1.

(** The exponent of the last place of the binary64 numbers around [q]:
    53 significant bits, and -1074 in the subnormal range. *)
Definition ulp_exp (q : Q) : Z := Z.max (Qlog2 q - 52) (-1074).

Definition round_pos (q : Q) : Q :=
  let e := ulp_exp q in
  Qred (inject_Z (rne (q / pow2 e)) * pow2 e).

(** The binary64 number nearest to [q], were the exponent range unbounded
    above. *)
Definition round64 (q : Q) : Q :=
  match Qnum q with
  | Z0 => 0%Q
  | Zpos _ => round_pos q
  | Zneg _ => Qred (- round_pos (- q))
  end.

Inductive float :=
  | Fin (q : Q)
  | Inf (neg : bool)
  | NaN.

Definition Qltb (x y : Q) : bool := negb (Qle_bool y x).

(** A rounded value of magnitude [2^1024] or more is out of range. *)
Definition out_of_range (r : Q) : bool := Qle_bool (pow2 1024) (Qabs r).

(** Rounding of an exact result as the arithmetic unit does it: overflow
    gives an infinity. *)
Definition float_of_Q (q : Q) : float :=
  let r := round64 q in
  if out_of_range r then Inf (Qltb q 0) else Fin r.

Definition is_zero (q : Q) : bool := Qeq_bool q 0.

Definition float_div (a b : float) : float :=
  match a, b with
  | Fin x, Fin y => float_of_Q (x / y)
  | Fin _, Inf _ => Fin 0
  | Inf s, Fin y => Inf (xorb s (Qltb y 0))
  | _, _ => NaN
  end.

Definition float_sub (a b : float) : float :=
  match a, b with
  | Fin x, Fin y => float_of_Q (x - y)
  | Fin _, Inf s => Inf (negb s)
  | Inf s, Fin _ => Inf s
  | Inf s, Inf t => if Bool.eqb s t then NaN else Inf s
  | _, _ => NaN
  end.

Definition float_mul (a b : float) : float :=
  match a, b with
  | Fin x, Fin y => float_of_Q (x * y)
  | Fin x, Inf s => if is_zero x then NaN else Inf (xorb s (Qltb x 0))
  | Inf s, Fin y => if is_zero y then NaN else Inf (xorb s (Qltb y 0))
  | Inf s, Inf t => Inf (xorb s t)
  | _, _ => NaN
  end.

(** ** Python numbers: [int] and [float] *)

Inductive pynum :=
  | PInt (z : Z)
  | PFloat (f : float).

(** [float(z)]: correctly rounded, [OverflowError] when too large. *)
Definition float_of_int (z : Z) : outcome float :=
  match float_of_Q (inject_Z z) with
  | Fin q => Ok (Fin q)
  | _ => Raise OverflowError
  end.

Definition to_float (x : pynum) : outcome float :=
  match x with
  | PInt z => float_of_int z
  | PFloat f => Ok f
  end.

(** [x < y].  An [int] and a [float] are compared by their exact values. *)
Definition py_lt (x y : pynum) : bool :=
  match x, y with
  | PInt a, PInt b => Z.ltb a b
  | PInt a, PFloat (Fin q) => Qltb (inject_Z a) q
  | PFloat (Fin q), PInt b => Qltb q (inject_Z b)
  | PFloat (Fin p), PFloat (Fin q) => Qltb p q
  | PInt _, PFloat (Inf s) => negb s
  | PFloat (Inf s), PInt _ => s
  | PFloat (Inf s), PFloat (Fin _) => s
  | PFloat (Fin _), PFloat (Inf s) => negb s
  | PFloat (Inf s), PFloat (Inf t) => s && negb t
  | _, _ => false
  end.

(** [x / y] (true division).  On two [int]s the exact quotient is rounded
    once; a quotient too large for a float raises [OverflowError]. *)
Definition py_truediv (x y : pynum) : outcome pynum :=
  match x, y with
  | PInt a, PInt b =>
      if Z.eqb b 0 then Raise ZeroDivisionError
      else match float_of_Q (inject_Z a / inject_Z b) with
           | Fin q => Ok (PFloat (Fin q))
           | _ => Raise OverflowError
           end
  | _, _ =>
      obind (to_float x) (fun a =>
      obind (to_float y) (fun b =>
      match b with
      | Fin q => if is_zero q then Raise ZeroDivisionError
                 else Ok (PFloat (float_div a b))
      | _ => Ok (PFloat (float_div a b))
      end))
  end.

(** [x - y] *)
Definition py_sub (x y : pynum) : outcome pynum :=
  match x, y with
  | PInt a, PInt b => Ok (PInt (a - b))
  | _, _ =>
      obind (to_float x) (fun a =>
      obind (to_float y) (fun b => Ok (PFloat (float_sub a b))))
  end.

(** [x * y] *)
Definition py_mul (x y : pynum) : outcome pynum :=
  match x, y with
  | PInt a, PInt b => Ok (PInt (a * b))
  | _, _ =>
      obind (to_float x) (fun a =>
      obind (to_float y) (fun b => Ok (PFloat (float_mul a b))))
  end.

(** *** The format specification [.2f] *)

Definition digit_char (d : Z) : ascii := ascii_of_nat (48 + Z.to_nat d).

Definition decimal (n : Z) : string := NilZero.string_of_uint (N.to_uint (Z.to_N n)).

(** The digits of a non-negative value with two decimals: the value times
    100 is rounded half to even on its exact binary value. *)
Definition fixed2 (q : Q) : string :=
  let n := rne (q * 100) in
  decimal (n / 100) ++ "." ++
  String (digit_char (n mod 100 / 10)) (String (digit_char (n mod 10)) EmptyString).

Definition format_float_2f (f : float) : string :=
  match f with
  | Fin q => if Qltb q 0 then "-" ++ fixed2 (Qabs q) else fixed2 q
  | Inf true => "-inf"
  | Inf false => "inf"
  | NaN => "nan"
  end.

(** [f"{x:.2f}"]: an [int] is converted to a float first. *)
Definition format_2f (x : pynum) : outcome string :=
  obind (to_float x) (fun f => Ok (format_float_2f f)).

(** Interpolation of an arbitrary object in an f-string: [None] prints as
    its name. *)
Definition str_of_option (o : option string) : string :=
  match o with
  | Some s => s
  | None => "None"
  end.

(** ** [convert_from_bytes] *)

Definition units : list string := ["bytes"; "KB"; "MB"; "GB"; "TB"].

(** The [for unit in ...] loop; falling off its end returns [None]. *)
Fixpoint convert_loop (us : list string) (bytes : pynum) : outcome (option string) :=
  match us with
  | [] => Ok None
  | unit :: rest =>
      if py_lt bytes (PInt 1000) then
        obind (format_2f bytes) (fun s => Ok (Some (s ++ " " ++ unit)))
      else
        obind (py_truediv bytes (PInt 1000)) (fun bytes' => convert_loop rest bytes')
  end.

Definition convert_from_bytes (bytes : Z) : outcome (option string) :=
  convert_loop units (PInt bytes).

(** ** The world the script runs in *)

Abbreviation content := (list Byte.byte).

(** What one run of the external compressor does, as seen by the script:
    whether it exits within the time limit and with which status, and the
    file it has written by then (whole or partial), if any, with its path. *)
Record gs_run := {
  gs_exit : option Z;
  gs_output : option (string * content)
}.

(** The parts of the platform the script calls into and does not define:
    the path functions of [os.path], the random identifiers of [uuid4] and
    the behaviour of Ghostscript.  Random draws and compressor runs are
    numbered in the order the script makes them. *)
Class Platform := {
  dirname : string -> string;
  basename : string -> string;
  path_join : string -> string -> string;
  uuid4_hex : nat -> string;
  ghostscript : nat -> string -> gmap string content -> gs_run;
  as_completed : forall A : Type, list A -> list A
}.

(** Calls into the operating system, in the order they are made. *)
Inductive event :=
  | EvGetsize (path : string)
  | EvListdir (path : string)
  | EvSpawn (cmd : string)
  | EvWait (seconds : Z)
  | EvTerminate
  | EvRemove (path : string)
  | EvRename (src dst : string)
  | EvPrint (text : string).

Record world := {
  files : gmap string content;   (* regular files, by path *)
  dirs : gset string;            (* directories, by path *)
  cwd : string;                  (* os.getcwd() *)
  draws : nat;                   (* random draws and spawns made so far *)
  trace : list event
}.

Definition set_files (fs : gmap string content) (w : world) : world :=
  {| files := fs; dirs := dirs w; cwd := cwd w; draws := draws w; trace := trace w |}.

Definition log (e : event) (w : world) : world :=
  {| files := files w; dirs := dirs w; cwd := cwd w; draws := draws w;
     trace := trace w ++ [e] |}.

Definition tick (w : world) : world :=
  {| files := files w; dirs := dirs w; cwd := cwd w; draws := S (draws w);
     trace := trace w |}.

(** Stateful computations: the world is threaded through, and kept when an
    exception ends the computation. *)
Definition M (A : Type) : Type := world -> outcome A * world.

Definition ret {A} (a : A) : M A := fun w => (Ok a, w).

Definition bind {A B} (m : M A) (f : A -> M B) : M B :=
  fun w =>
    match m w with
    | (Ok a, w') => f a w'
    | (Raise e, w') => (Raise e, w')
    | (Exit x, w') => (Exit x, w')
    end.

Definition lift {A} (o : outcome A) : M A := fun w => (o, w).

Definition sys_exit {A} (x : exit_arg) : M A := fun w => (Exit x, w).

Notation "'do' x <- m ; k" := (bind m (fun x => k))
  (at level 10, x name, m at level 100, k at level 200).
Notation "m ;; k" := (bind m (fun _ => k))
  (at level 100, k at level 200, right associativity).

(** *** Operating-system calls *)

Definition os_getsize (path : string) : M Z :=
  fun w =>
    let w' := log (EvGetsize path) w in
    match files w !! path with
    | Some c => (Ok (Z.of_nat (length c)), w')
    | None => (Raise (FileNotFoundError path), w')
    end.

Definition os_remove (path : string) : M unit :=
  fun w =>
    let w' := log (EvRemove path) w in
    match files w !! path with
    | Some _ => (Ok tt, set_files (delete path (files w)) w')
    | None => (Raise (FileNotFoundError path), w')
    end.

(** [os.rename] as on Windows, where the script runs: it does not replace
    an existing destination. *)
Definition os_rename (src dst : string) : M unit :=
  fun w =>
    let w' := log (EvRename src dst) w in
    match files w !! src with
    | None => (Raise (FileNotFoundError src), w')
    | Some c =>
        if decide (src = dst) then (Ok tt, w')
        else match files w !! dst with
             | Some _ => (Raise (FileExistsError dst), w')
             | None => (Ok tt, set_files (<[dst := c]> (delete src (files w))) w')
             end
    end.

Definition os_path_isdir (path : string) : M bool :=
  fun w => (Ok (bool_decide (path ∈ dirs w)), w).

Definition os_path_isfile (path : string) : M bool :=
  fun w => (Ok (bool_decide (is_Some (files w !! path))), w).

Definition os_getcwd : M string := fun w => (Ok (cwd w), w).

(** [os.listdir]: the names of the files directly in the directory. *)
Definition os_listdir `{Platform} (path : string) : M (list string) :=
  fun w =>
    let w' := log (EvListdir path) w in
    if decide (path ∈ dirs w) then
      (Ok (List.map basename
             (List.filter (fun p => String.eqb (dirname p) path)
                (elements (dom (files w))))), w')
    else if decide (is_Some (files w !! path)) then
      (Raise (NotADirectoryError path), w')
    else (Raise (FileNotFoundError path), w').

(** [uuid4().hex] *)
Definition uuid4 `{Platform} : M string :=
  fun w => (Ok (uuid4_hex (draws w)), tick w).

(** ** The script *)

Definition GS_ARGS : list string := [
  "gswin64.exe";
  "-sDEVICE=pdfwrite";
  "-dCompatibilityLevel=1.5";
  "-dNOPAUSE";
  "-dQUIET";
  "-dBATCH";
  "-dPrinted=false";
  "-dSubsetFonts=true";
  "-dCompressFonts=true";
  "-dEmbedAllFonts=true";
  "-dDetectDuplicateImages=true";
  "-dColorImageDownsampleType=/Bicubic";
  "-dColorImageResolution=300";
  "-dGrayImageDownsampleType=/Bicubic";
  "-dGrayImageResolution=300";
  "-dMonoImageDownsampleType=/Bicubic";
  "-dMonoImageResolution=300";
  "-dDownsampleColorImages=true";
  "-sProcessColorModel=DeviceRGB";
  "-sColorConversionStrategy=RGB";
  "-sColorConversionStrategyForImages=RGB";
  "-dConvertCMYKImagesToRGB=true";
  "-sOutputFile="
].

Definition GS : string := str_join " " GS_ARGS.

Definition quote : string := String (ascii_of_nat 34) EmptyString.
Definition ESC : string := String (ascii_of_nat 27) EmptyString.
Definition CR : string := String (ascii_of_nat 13) EmptyString.
Definition LF : string := String (ascii_of_nat 10) EmptyString.

(** [clear_print]: erase the line and print on it. *)
Definition clear_text (text : string) (next : bool) : string :=
  ESC ++ "[1K" ++ CR ++ text ++ (if next then LF else EmptyString).

Definition clear_print (text : string) (next : bool) : M unit :=
  fun w => (Ok tt, log (EvPrint (clear_text text next)) w).

(** A running process: [subprocess.Popen]. *)
Record popen := {
  run : gs_run;
  returncode : option Z
}.

(** [launch_minimized_process] *)
Definition launch_minimized_process `{Platform} (cmd : string) : M popen :=
  fun w =>
    (Ok {| run := ghostscript (draws w) cmd (files w); returncode := None |},
     tick (log (EvSpawn cmd) w)).

(** What the process has written by the time the script stops waiting. *)
Definition written (r : gs_run) (fs : gmap string content) : gmap string content :=
  match gs_output r with
  | Some (path, c) => <[path := c]> fs
  | None => fs
  end.

(** [process.wait(60)] inside [try], [process.terminate()] in the handler
    of [TimeoutExpired].  A process that is killed has no return code
    until it is waited for again. *)
Definition wait_or_terminate (p : popen) (seconds : Z) : M popen :=
  fun w =>
    let w1 := set_files (written (run p) (files w)) (log (EvWait seconds) w) in
    match gs_exit (run p) with
    | Some rc => (Ok {| run := run p; returncode := Some rc |}, w1)
    | None => (Ok p, log EvTerminate w1)
    end.

(** [unique_filename]: the f-string puts a space on either side of the
    identifier. *)
Definition unique_filename `{Platform} (ext prefix : string) : M string :=
  do hex <- uuid4;
  ret (prefix ++ " " ++ hex ++ " ." ++ ext).

(** [optimize_file] *)
Definition optimize_file `{Platform} (source_file_path : string) (verbose : bool)
  : M (option (Z * Z)) :=
  if negb (endswith source_file_path ".pdf") then sys_exit (ExitMsg "Not a PDF file.")
  else
    let source_file_name := basename source_file_path in
    let source_file_dir := dirname source_file_path in
    do source_file_size <- os_getsize source_file_path;
    do temp_file_name <- unique_filename "pdf" "temp_";
    let output_file_path := path_join source_file_dir temp_file_name in
    do process <- launch_minimized_process
                    (GS ++ quote ++ output_file_path ++ quote ++ " " ++
                     quote ++ source_file_path ++ quote);
    clear_print ("Optimizing " ++ source_file_name ++ "...") false;;
    do process <- wait_or_terminate process 60;
    if negb (bool_decide (returncode process = Some 0)) then ret None
    else
      do output_file_size <- os_getsize output_file_path;
      if Z.ltb output_file_size source_file_size then
        os_remove source_file_path;;
        os_rename output_file_path source_file_path;;
        (if verbose then
           do before <- lift (convert_from_bytes source_file_size);
           do after <- lift (convert_from_bytes output_file_size);
           clear_print (source_file_name ++ ": " ++ str_of_option before ++ " ->" ++
                        " " ++ str_of_option after) true
         else ret tt);;
        ret (Some (source_file_size, output_file_size))
      else
        (if verbose then
           clear_print (source_file_name ++ ": no optimization needed") true
         else ret tt);;
        os_remove output_file_path;;
        ret None.

(** [optimize_folder] *)

(** The result a future holds: what the job returned, or what it raised. *)
Abbreviation job_result := (outcome (option (Z * Z))).

(** The paths the loop over the directory submits to the pool. *)
Fixpoint submitted `{Platform} (source_folder_path : string) (entries : list string)
  : list string :=
  match entries with
  | [] => []
  | file :: rest =>
      if negb (startswith file "temp_") && endswith file ".pdf" then
        path_join source_folder_path file :: submitted source_folder_path rest
      else submitted source_folder_path rest
  end.

(** The pool runs the submitted jobs; an exception of a job stays in its
    future.  Jobs touch disjoint files, and the model runs them one after
    the other, in the order of submission. *)
Fixpoint run_jobs `{Platform} (paths : list string) (verbose : bool)
  : M (list job_result) :=
  match paths with
  | [] => ret []
  | file_path :: rest =>
      fun w =>
        let (future, w1) := optimize_file file_path verbose w in
        match run_jobs rest verbose w1 with
        | (Ok futures, w2) => (Ok (future :: futures), w2)
        | (Raise e, w2) => (Raise e, w2)
        | (Exit x, w2) => (Exit x, w2)
        end
  end.

(** The loop over the futures: [future.result()] raises what the job
    raised; a result that is [None] is skipped. *)
Fixpoint collect (futures : list job_result) (total_initial_size total_final_size : Z)
  : outcome (Z * Z) :=
  match futures with
  | [] => Ok (total_initial_size, total_final_size)
  | future :: rest =>
      obind future (fun result =>
        match result with
        | None => collect rest total_initial_size total_final_size
        | Some (initial, final) =>
            collect rest (total_initial_size + initial) (total_final_size + final)
        end)
  end.

(** [100 * (1 - total_final_size / total_initial_size)], with [.2f] *)
Definition compression_ratio (total_initial_size total_final_size : Z) : outcome string :=
  obind (py_truediv (PInt total_final_size) (PInt total_initial_size)) (fun q =>
  obind (py_sub (PInt 1) q) (fun d =>
  obind (py_mul (PInt 100) d) format_2f)).

(** The text of the summary. *)
Definition summary (total_initial_size total_final_size : Z) : outcome string :=
  obind (convert_from_bytes total_initial_size) (fun before =>
  obind (convert_from_bytes total_final_size) (fun after =>
  obind (compression_ratio total_initial_size total_final_size) (fun ratio =>
  Ok (str_of_option before ++ " ->" ++ " " ++ str_of_option after ++ "," ++
      " Compression ratio = " ++ ratio ++ "%")))).

(** The first two parts of [optimize_folder]: the pool and the totals. *)
Definition folder_totals `{Platform} (source_folder_path : string) (verbose : bool)
  : M (Z * Z) :=
  do entries <- os_listdir source_folder_path;
  do futures <- run_jobs (submitted source_folder_path entries) verbose;
  lift (collect (as_completed _ futures) 0 0).

Definition optimize_folder `{Platform} (source_folder_path : string) (verbose : bool)
  : M unit :=
  do totals <- folder_totals source_folder_path verbose;
  clear_print "Final compression stats:" true;;
  do text <- lift (summary (fst totals) (snd totals));
  clear_print text true.

(** The loop of the main block over [args.src]. *)
Definition main_item `{Platform} (item : string) (verbose : bool) : M unit :=
  if String.eqb item "." then
    do here <- os_getcwd;
    optimize_file here verbose;; ret tt
  else
    do is_dir <- os_path_isdir item;
    if is_dir then optimize_folder item verbose
    else
      do is_file <- os_path_isfile item;
      if is_file then optimize_file item true;; ret tt
      else sys_exit (ExitMsg "Not a valid path to PDF or folder containing PDFs.").

Fixpoint main_loop `{Platform} (src : list string) (verbose : bool) : M unit :=
  match src with
  | [] => ret tt
  | item :: rest => main_item item verbose;; main_loop rest verbose
  end.

(** How the interpreter ends: the exit status and what it writes to the
    error stream on [sys.exit]. *)
Definition process_end {A} (o : outcome A) : Z * option string :=
  match o with
  | Ok _ => (0, None)
  | Raise _ => (1, None)
  | Exit x => (exit_status x, exit_diagnostic x)
  end.

(** The text printed so far. *)
Definition printed (w : world) : list string :=
  omap (fun e => match e with EvPrint t => Some t | _ => None end) (trace w).

(** ** A small platform to run the script on *)

Definition is_sep (c : ascii) : bool :=
  Ascii.eqb c (ascii_of_nat 92) || Ascii.eqb c (ascii_of_nat 47).

(** Splits at the last separator: the part before it and the part after. *)
Fixpoint split_path (s : string) : option string * string :=
  match s with
  | EmptyString => (None, EmptyString)
  | String c s' =>
      match split_path s' with
      | (Some d, b) => (Some (String c d), b)
      | (None, b) => if is_sep c then (Some EmptyString, b) else (None, String c b)
      end
  end.

Definition simple_dirname (p : string) : string :=
  match fst (split_path p) with Some d => d | None => EmptyString end.

Definition simple_basename (p : string) : string := snd (split_path p).

Definition simple_join (d n : string) : string :=
  match d with
  | EmptyString => n
  | _ => d ++ String (ascii_of_nat 92) n
  end.

Definition hex_digit (n : nat) : ascii :=
  if Nat.ltb n 10 then ascii_of_nat (48 + n) else ascii_of_nat (87 + n).

Fixpoint hex_digits (len : nat) (n : nat) : string :=
  match len with
  | O => EmptyString
  | S len' => hex_digits len' (n / 16) ++ String (hex_digit (n mod 16)) EmptyString
  end.

(** Paths without drive letters, the [n]-th identifier is [n] in 32
    hexadecimal digits, results come in the order of submission. *)
Definition simple_platform (gs : nat -> string -> gmap string content -> gs_run)
  : Platform :=
  {| dirname := simple_dirname;
     basename := simple_basename;
     path_join := simple_join;
     uuid4_hex := hex_digits 32;
     ghostscript := gs;
     as_completed := fun _ l => l |}.

(** The text between the first pair of double quotes of a command line:
    the path that follows [-sOutputFile=]. *)
Fixpoint until_quote (s : string) : string :=
  match s with
  | EmptyString => EmptyString
  | String c s' =>
      if Ascii.eqb c (ascii_of_nat 34) then EmptyString else String c (until_quote s')
  end.

Fixpoint first_quoted (s : string) : string :=
  match s with
  | EmptyString => EmptyString
  | String c s' => if Ascii.eqb c (ascii_of_nat 34) then until_quote s' else first_quoted s'
  end.

(** A compressor whose [n]-th run ends as [behaviour n] says: the exit
    status, if it ends in time, and the bytes it writes to its output
    file, if it writes any. *)
Definition scripted_gs (behaviour : nat -> option Z * option content)
  : nat -> string -> gmap string content -> gs_run :=
  fun n cmd _ =>
    {| gs_exit := fst (behaviour n);
       gs_output := match snd (behaviour n) with
                    | Some c => Some (first_quoted cmd, c)
                    | None => None
                    end |}.

Definition blob (n : nat) : content := List.repeat Byte.x00 n.

Definition initial_world (fs : gmap string content) (ds : gset string) : world :=
  {| files := fs; dirs := ds; cwd := "C:\work"; draws := 0; trace := [] |}.

(** The quoted parts of a command line, in order: the output path, then
    the source path. *)
Fixpoint after_quote (s : string) : string :=
  match s with
  | EmptyString => EmptyString
  | String c s' => if Ascii.eqb c (ascii_of_nat 34) then s' else after_quote s'
  end.

Definition second_quoted (cmd : string) : string :=
  first_quoted (after_quote (after_quote cmd)).

(** A compressor that always succeeds and whose output has [shrink n]
    bytes for a source of [n] bytes. *)
Definition sizing_gs (shrink : Z -> Z) : nat -> string -> gmap string content -> gs_run :=
  fun _ cmd fs =>
    match fs !! second_quoted cmd with
    | Some c => {| gs_exit := Some 0;
                   gs_output := Some (first_quoted cmd,
                                      blob (Z.to_nat (shrink (Z.of_nat (length c))))) |}
    | None => {| gs_exit := Some 1; gs_output := None |}
    end.

(* ===================================================================== *)
(** * Part II: the vocabulary of the statements *)
(* ===================================================================== *)

(** ** Sizes *)

Definition file_size (c : content) : Z := Z.of_nat (length c).

(** No file of the platform is larger (NTFS, 64-bit sizes). *)
Definition max_file_size : Z := 2 ^ 64 - 1.

(** ** [convert_from_bytes] *)

(** The value the loop of [convert_from_bytes] holds when it reaches the
    [k]-th unit: [k] divisions by 1000. *)
Fixpoint value_in_unit (k : nat) (bytes : pynum) : outcome pynum :=
  match k with
  | O => Ok bytes
  | S k' => obind (py_truediv bytes (PInt 1000)) (value_in_unit k')
  end.

(** The same on the rational values of floats that stay in range. *)
Fixpoint chain (j : nat) (x : Q) : Q :=
  match j with
  | O => x
  | S j' => chain j' (round64 (x / 1000))
  end.

(** Values that stay in range when divided by 1000. *)
Definition safe (x : Q) : Prop := (0 <= x <= pow2 1015)%Q.

(** Values a division by 1000 brings into [safe]. *)
Definition wide (x : Q) : Prop := (0 <= x <= pow2 1024)%Q.

(** A text that ends in a point and two digits. *)
Definition two_decimals (s : string) : Prop :=
  exists whole d1 d2, 0 <= d1 <= 9 /\ 0 <= d2 <= 9 /\
    s = whole ++ "." ++ String (digit_char d1) (String (digit_char d2) EmptyString).

(** The least byte count shown in the [k]-th unit. *)
Definition unit_floor (k : nat) : Z :=
  match k with
  | O => 0
  | _ => 1000 ^ Z.of_nat k
  end.

(** The reading of the specification: the unit chosen is the largest of
    the five in which the value is below 1000. *)
Definition selects_largest_unit_below_1000 (bytes : Z) : Prop :=
  exists k v s, (k < 5)%nat /\
    value_in_unit k (PInt bytes) = Ok v /\
    py_lt v (PInt 1000) = true /\
    (forall j v', (k < j < 5)%nat -> value_in_unit j (PInt bytes) = Ok v' ->
                  py_lt v' (PInt 1000) = false) /\
    format_2f v = Ok s /\
    convert_from_bytes bytes = Ok (Some (s ++ " " ++ nth k units EmptyString)).

(** ** [optimize_file] *)

(** The name [unique_filename "pdf" "temp_"] builds from the identifier
    [hex]. *)
Definition temp_name (hex : string) : string := "temp_" ++ " " ++ hex ++ " ." ++ "pdf".

(** The temporary path a call of [optimize_file] in world [w] picks. *)
Definition temp_path `{Platform} (w : world) (source : string) : string :=
  path_join (dirname source) (temp_name (uuid4_hex (draws w))).

Definition gs_command (output source : string) : string :=
  GS ++ quote ++ output ++ quote ++ " " ++ quote ++ source ++ quote.

(** What the compressor does in that call. *)
Definition compressor_run `{Platform} (w : world) (source : string) : gs_run :=
  ghostscript (S (draws w)) (gs_command (temp_path w source) source) (files w).

(** The calls every job that gets past the suffix check starts with. *)
Definition prologue `{Platform} (w : world) (source : string) : list event :=
  [EvGetsize source;
   EvSpawn (gs_command (temp_path w source) source);
   EvPrint (clear_text ("Optimizing " ++ basename source ++ "...") false);
   EvWait 60].

Definition is_print (e : event) : Prop :=
  match e with
  | EvPrint _ => True
  | _ => False
  end.

(** ** [optimize_folder] *)

(** The candidate set as the specification words it. *)
Definition candidates (entries : list string) : list string :=
  List.filter (fun name => endswith name ".pdf" && negb (startswith name "temp_")) entries.

Definition total_initial (results : list (option (Z * Z))) : Z :=
  fold_right Z.add 0 (List.map fst (omap id results)).

Definition total_final (results : list (option (Z * Z))) : Z :=
  fold_right Z.add 0 (List.map snd (omap id results)).

(** The futures of a batch, in the order of submission, and the world the
    jobs leave. *)
Definition batch_results `{Platform} (source_folder_path : string) (verbose : bool)
  : M (list job_result) :=
  do entries <- os_listdir source_folder_path;
  run_jobs (submitted source_folder_path entries) verbose.

(** Results come back in some order of completion. *)
Definition completion_is_permutation `{Platform} : Prop :=
  forall (A : Type) (l : list A), Permutation l (as_completed A l).

(** ** Concrete runs *)

(** Three PDFs of 100000, 200000 and 50000 bytes; the compressor brings
    the first to 40000 and the second to 150000 bytes and leaves the size
    of the third. *)
Definition scenario_shrink (n : Z) : Z :=
  if Z.eqb n 100000 then 40000 else if Z.eqb n 200000 then 150000 else n.

Definition scenario_platform : Platform := simple_platform (sizing_gs scenario_shrink).

Definition scenario_world : world :=
  initial_world
    (list_to_map [("C:\docs\a.pdf", blob (Z.to_nat 100000));
                  ("C:\docs\b.pdf", blob (Z.to_nat 200000));
                  ("C:\docs\c.pdf", blob (Z.to_nat 50000))])
    {["C:\docs"]}.

(** One PDF of 100 bytes. *)
Definition single_world : world :=
  initial_world (list_to_map [("C:\docs\a.pdf", blob 100)]) {["C:\docs"]}.

(** A compressor that brings any file to 40 bytes. *)
Definition shrinking_platform : Platform := simple_platform (sizing_gs (fun _ => 40)).

(** A compressor that leaves the size of any file. *)
Definition idle_platform : Platform := simple_platform (sizing_gs (fun n => n)).

(** A compressor that writes 7 bytes and exits with status 1. *)
Definition failing_platform : Platform :=
  simple_platform (scripted_gs (fun _ => (Some 1, Some (blob 7)))).

(** A compressor that writes 3 bytes and then hangs. *)
Definition hanging_platform : Platform :=
  simple_platform (scripted_gs (fun _ => (None, Some (blob 3)))).

(** The first temporary name of [simple_platform]. *)
Definition first_temp_name : string := "temp_ 00000000000000000000000000000000 .pdf".

(** ** The machine's floats

    The rational value of a machine float, to compare the model of
    binary64 arithmetic above with the arithmetic unit on samples. *)
Definition Q_of_machine_float (f : PrimFloat.float) : option Q :=
  match FloatOps.Prim2SF f with
  | SpecFloat.S754_zero _ => Some 0%Q
  | SpecFloat.S754_finite s m e =>
      Some (Qred ((if s then -1 else 1) * inject_Z (Zpos m) * pow2 e))%Q
  | _ => None
  end.

Definition machine_float (z : Z) : PrimFloat.float :=
  PrimFloat.of_uint63 (Uint63.of_Z z).

Definition same_value (x : outcome pynum) (f : PrimFloat.float) : bool :=
  match x, Q_of_machine_float f with
  | Ok (PFloat (Fin q)), Some q' => Qeq_bool q q'
  | _, _ => false
  end.

(** [a / b], [a / 1000 / 1000 / 1000] and [100 * (1 - a / b)], in the model
    and on the machine. *)
Definition agrees_on (a b : Z) : bool :=
  same_value (py_truediv (PInt a) (PInt b))
    (PrimFloat.div (machine_float a) (machine_float b)) &&
  same_value
    (obind (py_truediv (PInt a) (PInt 1000)) (fun x =>
     obind (py_truediv x (PInt 1000)) (fun y => py_truediv y (PInt 1000))))
    (PrimFloat.div (PrimFloat.div (PrimFloat.div (machine_float a) (machine_float 1000))
                      (machine_float 1000)) (machine_float 1000)) &&
  same_value
    (obind (py_truediv (PInt a) (PInt b)) (fun x =>
     obind (py_sub (PInt 1) x) (fun y => py_mul (PInt 100) y)))
    (PrimFloat.mul (machine_float 100)
       (PrimFloat.sub (machine_float 1) (PrimFloat.div (machine_float a) (machine_float b)))).

Definition float_samples : list (Z * Z) :=
  List.map (fun k => let n := Z.of_nat k in ((n * 7919 + 13) * (n * n + 1), n * 977 + 1000))
    (seq 0 200).

(** ** Further vocabulary *)

(** A future that holds a present result holds an improvement: a final
    size below the initial one. *)
Definition improvement (future : job_result) : Prop :=
  forall initial final, future = Ok (Some (initial, final)) -> 0 <= final < initial.

(** A future whose job returned, with or without a result. *)
Definition returned (future : job_result) : Prop := exists result, future = Ok result.

Definition is_printb (e : event) : bool :=
  match e with
  | EvPrint _ => true
  | _ => false
  end.

(** The calls other than prints. *)
Definition system_calls (t : list event) : list event :=
  List.filter (fun e => negb (is_printb e)) t.

(** [convert_from_bytes] on [n] gives [n] itself with two zeros. *)
Definition small_text_ok (n : nat) : bool :=
  match convert_from_bytes (Z.of_nat n) with
  | Ok (Some s) => String.eqb s (decimal (Z.of_nat n) ++ ".00 bytes")
  | _ => false
  end.

(** A compressor that exits with status 0 and writes nothing. *)
Definition silent_platform : Platform :=
  simple_platform (scripted_gs (fun _ => (Some 0, None))).

(* ===================================================================== *)
(** * Part III: lemmas *)
(* ===================================================================== *)

(** ** Rounding is monotone *)

Section Rounding.
Local Open Scope Q_scope.

Lemma pow2_pos e : 0 < pow2 e.
Proof. unfold pow2. apply Qpower_0_lt. reflexivity. Qed.

Lemma pow2_add a b : pow2 (a + b) == pow2 a * pow2 b.
Proof. unfold pow2. apply Qpower_plus. discriminate. Qed.

Lemma pow2_le a b : (a <= b)%Z -> pow2 a <= pow2 b.
Proof. intros. unfold pow2. apply Qpower_le_compat_l; [assumption | discriminate]. Qed.

Lemma pow2_lt_inv a b : pow2 a < pow2 b -> (a < b)%Z.
Proof. intros. unfold pow2 in *. eapply Qpower_lt_compat_l_inv; [eassumption | reflexivity]. Qed.

Lemma pow2_Z n : (0 <= n)%Z -> pow2 n == inject_Z (2 ^ n).
Proof. intros. unfold pow2. rewrite Zpower_Qpower by assumption. reflexivity. Qed.

Lemma rne_bounds q : inject_Z (Qfloor q) <= inject_Z (rne q) <= inject_Z (Qfloor q) + 1.
Proof.
  unfold rne. destruct (Qcompare _ _); [destruct (Z.even _) | |];
    rewrite ?inject_Z_plus; change (inject_Z 1) with 1; lra.
Qed.

Lemma rne_mono p q : p <= q -> (rne p <= rne q)%Z.
Proof.
  intros Hpq.
  pose proof (Qfloor_resp_le _ _ Hpq) as Hf.
  destruct (Z.eq_dec (Qfloor p) (Qfloor q)) as [E | NE].
  - unfold rne. rewrite E.
    destruct (Qcompare_spec (p - inject_Z (Qfloor q)) (1 # 2)) as [H1 | H1 | H1];
    destruct (Qcompare_spec (q - inject_Z (Qfloor q)) (1 # 2)) as [H2 | H2 | H2];
    try destruct (Z.even (Qfloor q)); try lia; exfalso; lra.
  - assert (Hlt : (Qfloor p + 1 <= Qfloor q)%Z) by lia.
    pose proof (rne_bounds p) as [_ Hp]. pose proof (rne_bounds q) as [Hq _].
    rewrite Zle_Qle.
    rewrite Zle_Qle, inject_Z_plus in Hlt. change (inject_Z 1) with 1 in Hlt. lra.
Qed.

Lemma rne_Z z : rne (inject_Z z) = z.
Proof.
  unfold rne. rewrite Qfloor_Z.
  destruct (Qcompare_spec (inject_Z z - inject_Z z) (1 # 2)) as [H | H | H]; try reflexivity;
    exfalso; lra.
Qed.

Lemma pow2_succ a : pow2 (a + 1) == 2 * pow2 a.
Proof. rewrite pow2_add. change (pow2 1) with 2. ring. Qed.

Lemma pow2_pred a : pow2 (a - 1) == pow2 a / 2.
Proof.
  assert (H : pow2 a == pow2 ((a - 1) + 1)) by (replace (a - 1 + 1)%Z with a by lia; reflexivity).
  rewrite pow2_succ in H. rewrite H. field.
Qed.

Lemma Z_log2_Q n : (0 < n)%Z -> pow2 (Z.log2 n) <= inject_Z n < 2 * pow2 (Z.log2 n).
Proof.
  intros Hn. destruct (Z.log2_spec n Hn) as [H1 H2].
  pose proof (Z.log2_nonneg n) as H0.
  rewrite <- pow2_succ. rewrite !pow2_Z by lia.
  rewrite <- Zle_Qle, <- Zlt_Qlt. replace (Z.log2 n + 1)%Z with (Z.succ (Z.log2 n)) by lia.
  split; assumption.
Qed.

Lemma Qlog2_spec q : 0 < q -> pow2 (Qlog2 q) <= q < pow2 (Qlog2 q + 1).
Proof.
  intros Hq. unfold Qlog2.
  set (l := (Z.log2 (Qnum q) - Z.log2 (Z.pos (Qden q)))%Z).
  assert (Hn : (0 < Qnum q)%Z).
  { destruct q as [n d]. unfold Qlt in Hq. simpl in *. lia. }
  pose proof (Z_log2_Q _ Hn) as [HA1 HA2].
  pose proof (Z_log2_Q (Z.pos (Qden q)) eq_refl) as [HB1 HB2].
  assert (HP : pow2 l * pow2 (Z.log2 (Z.pos (Qden q))) == pow2 (Z.log2 (Qnum q))).
  { rewrite <- pow2_add. unfold l.
    replace (Z.log2 (Qnum q) - Z.log2 (Z.pos (Qden q)) + Z.log2 (Z.pos (Qden q)))%Z
      with (Z.log2 (Qnum q)) by lia. reflexivity. }
  assert (HqD : q * inject_Z (Z.pos (Qden q)) == inject_Z (Qnum q)).
  { destruct q as [n d]. cbn [Qnum Qden]. rewrite (Qmake_Qdiv n d).
    field. discriminate. }
  pose proof (pow2_pos l) as HPpos.
  pose proof (pow2_pos (Z.log2 (Z.pos (Qden q)))) as HBpos.
  pose proof (pow2_pos (Z.log2 (Qnum q))) as HApos.
  revert HA1 HA2 HB1 HB2 HP HqD HPpos HBpos HApos.
  generalize (pow2 (Z.log2 (Qnum q))) (pow2 (Z.log2 (Z.pos (Qden q))))
    (inject_Z (Qnum q)) (inject_Z (Z.pos (Qden q))).
  intros A B N D HA1 HA2 HB1 HB2 HP HqD HPpos HBpos HApos.
  destruct (Qle_bool (pow2 l) q) eqn:E.
  - apply Qle_bool_iff in E. split; [assumption |].
    rewrite pow2_succ. 
    destruct (Qlt_le_dec q (2 * pow2 l)) as [? | C]; [assumption | exfalso].
    assert (2 * pow2 l * B <= q * D) by nra. nra.
  - assert (E' : q < pow2 l).
    { destruct (Qlt_le_dec q (pow2 l)) as [? | C]; [assumption |].
      apply Qle_bool_iff in C. congruence. }
    replace (l - 1 + 1)%Z with l by lia. split; [| assumption].
    rewrite pow2_pred.
    destruct (Qlt_le_dec q (pow2 l / 2)) as [C | ?]; [exfalso | assumption].
    assert (q * D < pow2 l / 2 * (2 * B)) by nra.
    assert (pow2 l / 2 * (2 * B) == A) by (rewrite <- HP; field). nra.
Qed.

Lemma Qlog2_mono p q : 0 < p -> p <= q -> (Qlog2 p <= Qlog2 q)%Z.
Proof.
  intros Hp Hpq.
  destruct (Qlog2_spec p Hp) as [H1 _].
  destruct (Qlog2_spec q) as [_ H2]; [lra |].
  assert (H : pow2 (Qlog2 p) < pow2 (Qlog2 q + 1)) by lra.
  apply pow2_lt_inv in H. lia.
Qed.

Lemma ulp_exp_mono p q : 0 < p -> p <= q -> (ulp_exp p <= ulp_exp q)%Z.
Proof. intros Hp Hpq. unfold ulp_exp. pose proof (Qlog2_mono p q Hp Hpq). lia. Qed.

Lemma scaled_rne_mono e p q :
  p <= q ->
  inject_Z (rne (p / pow2 e)) * pow2 e <= inject_Z (rne (q / pow2 e)) * pow2 e.
Proof.
  intros Hpq. apply Qmult_le_compat_r; [| apply Qlt_le_weak, pow2_pos].
  rewrite <- Zle_Qle. apply rne_mono.
  apply Qmult_le_compat_r; [assumption |].
  apply Qlt_le_weak, Qinv_lt_0_compat, pow2_pos.
Qed.

Lemma round_pos_mono p q : 0 < p -> p <= q -> round_pos p <= round_pos q.
Proof.
  intros Hp Hpq. unfold round_pos. rewrite !Qred_correct.
  pose proof (ulp_exp_mono p q Hp Hpq) as He.
  destruct (Z.eq_dec (ulp_exp p) (ulp_exp q)) as [E | NE].
  - rewrite E. apply scaled_rne_mono. assumption.
  - (* different binades: 2^(e2 + 52) separates the two values *)
    set (e1 := ulp_exp p) in *. set (e2 := ulp_exp q) in *.
    assert (He2 : e2 = (Qlog2 q - 52)%Z) by (unfold e2, e1, ulp_exp in *; lia).
    assert (HL : (Qlog2 p + 1 <= Qlog2 q)%Z) by (unfold e2, e1, ulp_exp in *; lia).
    apply Qle_trans with (pow2 (e2 + 52)).
    + (* the lower value stays below the separator *)
      assert (Hsep : pow2 (e2 + 52) == inject_Z (2 ^ (e2 + 52 - e1)) * pow2 e1).
      { rewrite <- pow2_Z by lia. rewrite <- pow2_add.
        replace (e2 + 52 - e1 + e1)%Z with (e2 + 52)%Z by lia. reflexivity. }
      rewrite Hsep. apply Qmult_le_compat_r; [| apply Qlt_le_weak, pow2_pos].
      rewrite <- Zle_Qle. rewrite <- (rne_Z (2 ^ (e2 + 52 - e1))).
      apply rne_mono. rewrite <- pow2_Z by lia.
      apply Qle_shift_div_r; [apply pow2_pos |].
      rewrite <- pow2_add. replace (e2 + 52 - e1 + e1)%Z with (e2 + 52)%Z by lia.
      destruct (Qlog2_spec p Hp) as [_ Hup].
      apply Qlt_le_weak. eapply Qlt_le_trans; [exact Hup |].
      apply pow2_le. lia.
    + assert (Hsep : pow2 (e2 + 52) == inject_Z (2 ^ 52) * pow2 e2).
      { rewrite <- pow2_Z by lia. rewrite <- pow2_add.
        replace (52 + e2)%Z with (e2 + 52)%Z by lia. reflexivity. }
      rewrite Hsep. apply Qmult_le_compat_r; [| apply Qlt_le_weak, pow2_pos].
      rewrite <- Zle_Qle. rewrite <- (rne_Z (2 ^ 52)) at 1.
      apply rne_mono. rewrite <- pow2_Z by lia.
      apply Qle_shift_div_l; [apply pow2_pos |].
      rewrite <- pow2_add. replace (52 + e2)%Z with (Qlog2 q) by lia.
      apply Qlog2_spec. lra.
Qed.

Lemma rne_nonneg q : 0 <= q -> (0 <= rne q)%Z.
Proof. intros H. rewrite <- (rne_Z 0). apply rne_mono. exact H. Qed.

Lemma round_pos_nonneg q : 0 < q -> 0 <= round_pos q.
Proof.
  intros H. unfold round_pos. rewrite Qred_correct.
  apply Qmult_le_0_compat; [| apply Qlt_le_weak, pow2_pos].
  change 0 with (inject_Z 0). rewrite <- Zle_Qle. apply rne_nonneg.
  apply Qle_shift_div_l; [apply pow2_pos | lra].
Qed.

Lemma Qnum_pos q : 0 < q -> exists p, Qnum q = Z.pos p.
Proof.
  destruct q as [[| p | p] d]; unfold Qlt; simpl; intros H; try lia. eauto.
Qed.

Lemma Qnum_nonneg q : 0 <= q -> Qnum q = 0%Z \/ exists p, Qnum q = Z.pos p.
Proof.
  destruct q as [[| p | p] d]; unfold Qle; simpl; intros H; try lia; eauto.
Qed.

Lemma round64_nonneg q : 0 <= q -> 0 <= round64 q.
Proof.
  intros H. unfold round64. destruct (Qnum_nonneg q H) as [E | [p E]]; rewrite E.
  - lra.
  - apply round_pos_nonneg. destruct q as [n d]. simpl in E. subst n. reflexivity.
Qed.

Lemma round64_mono p q : 0 <= p -> p <= q -> round64 p <= round64 q.
Proof.
  intros Hp Hpq. destruct (Qnum_nonneg p Hp) as [E | [n E]].
  - unfold round64 at 1. rewrite E. apply round64_nonneg. lra.
  - assert (Hp' : 0 < p) by (destruct p as [a d]; simpl in E; subst a; reflexivity).
    destruct (Qnum_pos q) as [m E']; [lra |].
    unfold round64. rewrite E, E'. apply round_pos_mono; assumption.
Qed.

Lemma div1000_nonneg p : 0 <= p -> 0 <= p / 1000.
Proof. intros. apply Qle_shift_div_l; lra. Qed.

Lemma div1000_le p q : p <= q -> p / 1000 <= q / 1000.
Proof. intros. unfold Qdiv. apply Qmult_le_compat_r; [assumption | discriminate]. Qed.

Lemma chain_nonneg j : forall x, 0 <= x -> 0 <= chain j x.
Proof.
  induction j as [| j IH]; intros x Hx; simpl; [assumption |].
  apply IH, round64_nonneg, div1000_nonneg, Hx.
Qed.

Lemma chain_mono j : forall p q, 0 <= p -> p <= q -> chain j p <= chain j q.
Proof.
  induction j as [| j IH]; intros p q Hp Hpq; simpl; [assumption |].
  apply IH; [apply round64_nonneg | apply round64_mono];
    auto using div1000_nonneg, div1000_le.
Qed.


Lemma round64_pow2_1015 : Qle_bool (round64 (pow2 1015 / 1000)) (pow2 1015) = true.
Proof. vm_compute. reflexivity. Qed.

Lemma safe_step x : safe x -> safe (round64 (x / 1000)).
Proof.
  intros [H0 H1].
  split; [apply round64_nonneg, div1000_nonneg, H0 |].
  eapply Qle_trans; [apply round64_mono; [apply div1000_nonneg, H0 | apply div1000_le, H1] |].
  apply Qle_bool_iff, round64_pow2_1015.
Qed.

Lemma safe_in_range x : safe x -> out_of_range x = false.
Proof.
  intros [H0 H1]. unfold out_of_range.
  destruct (Qle_bool (pow2 1024) (Qabs x)) eqn:E; [exfalso | reflexivity].
  apply Qle_bool_iff in E. rewrite Qabs_pos in E by assumption.
  assert (Hlt : pow2 1015 < pow2 1024) by (apply Qpower_lt_compat_l; [lia | reflexivity]).
  lra.
Qed.

Lemma safe_chain j : forall x, safe x -> safe (chain j x).
Proof. induction j as [| j IH]; intros x Hx; simpl; [assumption | apply IH, safe_step, Hx]. Qed.


Lemma round64_pow2_1024 : Qle_bool (round64 (pow2 1024 / 1000)) (pow2 1015) = true.
Proof. vm_compute. reflexivity. Qed.

Lemma wide_step x : wide x -> safe (round64 (x / 1000)).
Proof.
  intros [H0 H1].
  split; [apply round64_nonneg, div1000_nonneg, H0 |].
  eapply Qle_trans; [apply round64_mono; [apply div1000_nonneg, H0 | apply div1000_le, H1] |].
  apply Qle_bool_iff, round64_pow2_1024.
Qed.

Lemma wide_of_Z b : (0 <= b < 2 ^ 1024)%Z -> wide (inject_Z b).
Proof.
  intros [H0 H1]. split.
  - change 0 with (inject_Z 0). rewrite <- Zle_Qle. exact H0.
  - rewrite pow2_Z by lia. rewrite <- Zle_Qle. lia.
Qed.

Lemma safe_wide x : safe x -> wide x.
Proof.
  intros [H0 H1]. split; [assumption |].
  eapply Qle_trans; [exact H1 |]. apply pow2_le. lia.
Qed.

Lemma float_of_Q_wide x : wide x -> float_of_Q (x / 1000) = Fin (round64 (x / 1000)).
Proof. intros Hx. unfold float_of_Q. rewrite (safe_in_range _ (wide_step x Hx)). reflexivity. Qed.

Lemma truediv_float_1000 x :
  safe x -> py_truediv (PFloat (Fin x)) (PInt 1000) = Ok (PFloat (Fin (round64 (x / 1000)))).
Proof.
  intros Hx. unfold py_truediv. cbn [to_float obind].
  change (float_of_int 1000) with (Ok (Fin 1000)). cbn [obind].
  change (is_zero 1000) with false. cbv iota. unfold float_div.
  rewrite float_of_Q_wide by (apply safe_wide; assumption). reflexivity.
Qed.

Lemma truediv_int_1000 b :
  (0 <= b < 2 ^ 1024)%Z ->
  py_truediv (PInt b) (PInt 1000) = Ok (PFloat (Fin (round64 (inject_Z b / 1000)))).
Proof.
  intros Hb. unfold py_truediv. change (Z.eqb 1000 0) with false. cbv iota.
  change (inject_Z 1000) with 1000. rewrite float_of_Q_wide by (apply wide_of_Z; assumption).
  reflexivity.
Qed.

Lemma value_in_unit_float k : forall x,
  safe x -> value_in_unit k (PFloat (Fin x)) = Ok (PFloat (Fin (chain k x))).
Proof.
  induction k as [| k IH]; intros x Hx; cbn [value_in_unit chain]; [reflexivity |].
  rewrite truediv_float_1000 by assumption. cbn [obind]. apply IH, safe_step, Hx.
Qed.

Lemma value_in_unit_int k b :
  (0 <= b < 2 ^ 1024)%Z ->
  value_in_unit (S k) (PInt b) = Ok (PFloat (Fin (chain (S k) (inject_Z b)))).
Proof.
  intros Hb. cbn [value_in_unit chain]. rewrite truediv_int_1000 by assumption. cbn [obind].
  apply value_in_unit_float, wide_step, wide_of_Z, Hb.
Qed.

End Rounding.

(** The model computes what the arithmetic unit computes, on the samples,
    and on the quotient of the scenario of the specification. *)
Lemma model_agrees_with_machine_floats :
  forallb (fun ab => agrees_on (fst ab) (snd ab)) float_samples = true /\
  agrees_on 190000 300000 = true.
Proof. vm_compute. split; reflexivity. Qed.

(** ** The loop of [convert_from_bytes] *)

Lemma Qltb_true x y : Qltb x y = true <-> (x < y)%Q.
Proof.
  unfold Qltb. destruct (Qle_bool y x) eqn:E; simpl.
  - apply Qle_bool_iff in E. split; [discriminate | intros H; exfalso; lra].
  - split; [intros _ | reflexivity].
    destruct (Qlt_le_dec x y) as [? | C]; [assumption |].
    apply Qle_bool_iff in C. congruence.
Qed.

Lemma Qltb_false x y : Qltb x y = false <-> (y <= x)%Q.
Proof.
  unfold Qltb. destruct (Qle_bool y x) eqn:E; simpl.
  - apply Qle_bool_iff in E. tauto.
  - split; [discriminate |]. intros C. apply Qle_bool_iff in C. congruence.
Qed.

Lemma two_decimals_fixed2 q : two_decimals (fixed2 q).
Proof.
  unfold fixed2, two_decimals. set (n := rne (q * 100)).
  exists (decimal (n / 100)), (n mod 100 / 10), (n mod 10).
  repeat split; try reflexivity.
  - apply Z.div_pos; [apply Z.mod_pos_bound |]; lia.
  - pose proof (Z.mod_pos_bound n 100 ltac:(lia)).
    apply Z.lt_succ_r. apply Z.div_lt_upper_bound; lia.
  - apply Z.mod_pos_bound; lia.
  - pose proof (Z.mod_pos_bound n 10 ltac:(lia)). lia.
Qed.

Lemma format_nonneg q : (0 <= q)%Q -> format_float_2f (Fin q) = fixed2 q.
Proof.
  intros H. unfold format_float_2f.
  destruct (Qltb q 0) eqn:E; [| reflexivity].
  apply Qltb_true in E. exfalso. lra.
Qed.

Lemma convert_loop_float_step u rest x :
  safe x ->
  convert_loop (u :: rest) (PFloat (Fin x)) =
    if Qltb x 1000 then Ok (Some (fixed2 x ++ " " ++ u))
    else convert_loop rest (PFloat (Fin (round64 (x / 1000)))).
Proof.
  intros Hx. cbn [convert_loop].
  change (py_lt (PFloat (Fin x)) (PInt 1000)) with (Qltb x 1000).
  destruct (Qltb x 1000).
  - cbn [format_2f to_float obind]. rewrite format_nonneg by apply Hx. reflexivity.
  - rewrite truediv_float_1000 by assumption. reflexivity.
Qed.

Lemma convert_loop_skip n : forall us x,
  safe x ->
  (n <= length us)%nat ->
  (forall j, (j < n)%nat -> (1000 <= chain j x)%Q) ->
  convert_loop us (PFloat (Fin x)) = convert_loop (skipn n us) (PFloat (Fin (chain n x))).
Proof.
  induction n as [| n IH]; intros us x Hx Hlen Hge; [reflexivity |].
  destruct us as [| u rest]; [simpl in Hlen; lia |].
  rewrite convert_loop_float_step by assumption.
  pose proof (Hge O ltac:(lia)) as H0. cbn [chain] in H0.
  apply Qltb_false in H0. rewrite H0.
  cbn [skipn chain]. apply IH.
  - apply safe_step, Hx.
  - simpl in Hlen. lia.
  - intros j Hj. apply (Hge (S j)). lia.
Qed.

Lemma convert_from_bytes_big b :
  (1000 <= b < 2 ^ 1024)%Z ->
  convert_from_bytes b = convert_loop (tl units) (PFloat (Fin (chain 1 (inject_Z b)))).
Proof.
  intros Hb. unfold convert_from_bytes, units. cbn [convert_loop tl].
  change (py_lt (PInt b) (PInt 1000)) with (Z.ltb b 1000).
  destruct (Z.ltb_spec b 1000) as [? | _]; [lia |].
  rewrite truediv_int_1000 by lia. reflexivity.
Qed.

Lemma convert_loop_float_ok us : forall x,
  safe x -> exists r, convert_loop us (PFloat (Fin x)) = Ok r.
Proof.
  induction us as [| u rest IH]; intros x Hx; [eexists; reflexivity |].
  rewrite convert_loop_float_step by assumption.
  destruct (Qltb x 1000); [eexists; reflexivity |].
  apply IH, safe_step, Hx.
Qed.

Lemma float_of_small_int b :
  (0 <= b < 1000)%Z ->
  float_of_int b = Ok (Fin (round64 (inject_Z b))) /\ (0 <= round64 (inject_Z b))%Q.
Proof.
  intros Hb.
  assert (H0 : (0 <= inject_Z b)%Q) by (change 0%Q with (inject_Z 0); rewrite <- Zle_Qle; lia).
  assert (H1 : (inject_Z b <= pow2 1015)%Q).
  { apply Qle_trans with (inject_Z 1000); [rewrite <- Zle_Qle; lia |]. vm_compute. discriminate. }
  assert (Hr : (round64 (inject_Z b) <= pow2 1015)%Q).
  { apply Qle_trans with (round64 (pow2 1015)); [apply round64_mono; assumption |].
    vm_compute. discriminate. }
  pose proof (round64_nonneg _ H0) as Hr0.
  split; [| assumption].
  unfold float_of_int, float_of_Q. rewrite safe_in_range by (split; assumption). reflexivity.
Qed.

Lemma convert_from_bytes_small b :
  (0 <= b < 1000)%Z ->
  convert_from_bytes b = Ok (Some (fixed2 (round64 (inject_Z b)) ++ " " ++ "bytes")).
Proof.
  intros Hb. unfold convert_from_bytes, units. cbn [convert_loop].
  change (py_lt (PInt b) (PInt 1000)) with (Z.ltb b 1000).
  destruct (Z.ltb_spec b 1000) as [_ | ?]; [| lia].
  destruct (float_of_small_int b Hb) as [E H0].
  unfold format_2f. cbn [to_float]. rewrite E. cbn [obind].
  rewrite format_nonneg by assumption. reflexivity.
Qed.

Lemma convert_from_bytes_ok b :
  (0 <= b < 2 ^ 1024)%Z -> exists r, convert_from_bytes b = Ok r.
Proof.
  intros Hb. destruct (Z.lt_ge_cases b 1000) as [Hs | Hl].
  - rewrite convert_from_bytes_small by lia. eexists; reflexivity.
  - rewrite convert_from_bytes_big by lia.
    apply convert_loop_float_ok. cbn [chain]. apply wide_step, wide_of_Z. lia.
Qed.

(** The rounding of the floats shows: 1015 / 1000 is the float just below
    1.015, and the text is 1.01, where the exact quotient would round to
    1.02.  Beyond the range of floats the division raises. *)
Example convert_from_bytes_rounds_in_binary :
  convert_from_bytes 1015 = Ok (Some "1.01 KB") /\
  convert_from_bytes (10 ^ 400) = Raise OverflowError.
Proof. vm_compute. split; reflexivity. Qed.

(** Thresholds: the iterated quotient of the ends of each range. *)
Lemma chain_lower j lo b :
  (0 <= lo <= b)%Z ->
  Qle_bool 1000 (chain j (inject_Z lo)) = true ->
  (1000 <= chain j (inject_Z b))%Q.
Proof.
  intros Hb Hc. apply Qle_bool_iff in Hc.
  eapply Qle_trans; [exact Hc |].
  apply chain_mono; [change 0%Q with (inject_Z 0) |]; rewrite <- Zle_Qle; lia.
Qed.

Lemma chain_upper j hi b :
  (0 <= b <= hi)%Z ->
  Qltb (chain j (inject_Z hi)) 1000 = true ->
  (chain j (inject_Z b) < 1000)%Q.
Proof.
  intros Hb Hc. apply Qltb_true in Hc.
  eapply Qle_lt_trans; [| exact Hc].
  apply chain_mono; [change 0%Q with (inject_Z 0) |]; rewrite <- Zle_Qle; lia.
Qed.

Lemma unit_thresholds k b :
  (1 <= k < 5)%nat ->
  1000 ^ Z.of_nat k <= b < 1000 ^ (Z.of_nat k + 1) ->
  (forall j, (1 <= j < k)%nat -> (1000 <= chain j (inject_Z b))%Q) /\
  (chain k (inject_Z b) < 1000)%Q.
Proof.
  intros Hk Hb.
  destruct k as [| [| [| [| [| k]]]]]; try lia; cbn in Hb; (split;
  [ intros j Hj;
    destruct j as [| [| [| [| j]]]]; try lia;
    (eapply chain_lower; [split; [| apply Hb]; lia | vm_compute; reflexivity])
  | match type of Hb with
    | _ <= _ < ?h => apply (chain_upper _ (h - 1)); [lia | vm_compute; reflexivity]
    end ]).
Qed.

Lemma unit_selection bytes k :
  (k < 5)%nat ->
  unit_floor k <= bytes < 1000 ^ (Z.of_nat k + 1) ->
  exists v s,
    value_in_unit k (PInt bytes) = Ok v /\
    py_lt v (PInt 1000) = true /\
    (forall j, (j < k)%nat ->
       exists v', value_in_unit j (PInt bytes) = Ok v' /\ py_lt v' (PInt 1000) = false) /\
    format_2f v = Ok s /\
    two_decimals s /\
    convert_from_bytes bytes = Ok (Some (s ++ " " ++ nth k units EmptyString)).
Proof.
  intros Hk Hb. destruct k as [| k].
  - (* the value is below 1000 as it is *)
    cbn in Hb. destruct (float_of_small_int bytes Hb) as [E H0].
    exists (PInt bytes), (fixed2 (round64 (inject_Z bytes))). repeat split.
    + cbn. apply Z.ltb_lt. lia.
    + intros j Hj. lia.
    + unfold format_2f. cbn [to_float]. rewrite E. cbn [obind].
      rewrite format_nonneg by assumption. reflexivity.
    + apply two_decimals_fixed2.
    + apply convert_from_bytes_small. assumption.
  - assert (Hge : 1000 <= bytes).
    { unfold unit_floor in Hb. pose proof (Z.pow_le_mono_r 1000 1 (Z.of_nat (S k))). lia. }
    assert (Hlt : bytes < 2 ^ 1024).
    { destruct Hb as [_ Hb]. eapply Z.lt_le_trans; [exact Hb |].
      apply Z.le_trans with (1000 ^ 5); [apply Z.pow_le_mono_r; lia |].
      vm_compute. discriminate. }
    destruct (unit_thresholds (S k) bytes ltac:(lia) Hb) as [Hlow Hup].
    remember (inject_Z bytes) as x eqn:Ex.
    assert (Hsafe : forall j, safe (chain (S j) x)).
    { intros j. cbn [chain]. subst x. apply safe_chain, wide_step, wide_of_Z. lia. }
    exists (PFloat (Fin (chain (S k) x))), (fixed2 (chain (S k) x)). repeat split.
    + rewrite value_in_unit_int by lia. subst x. reflexivity.
    + apply Qltb_true. exact Hup.
    + intros j Hj. destruct j as [| j].
      * exists (PInt bytes). split; [reflexivity |]. cbn. apply Z.ltb_ge. lia.
      * exists (PFloat (Fin (chain (S j) x))). split.
        -- rewrite value_in_unit_int by lia. subst x. reflexivity.
        -- apply Qltb_false. apply Hlow. lia.
    + cbn [format_2f to_float obind]. rewrite format_nonneg by apply (Hsafe k). reflexivity.
    + apply two_decimals_fixed2.
    + rewrite convert_from_bytes_big by lia. rewrite <- Ex.
      rewrite (convert_loop_skip k).
      * change (chain k (chain 1 x)) with (chain (S k) x).
        assert (Hnth : exists u rest,
                  skipn k (tl units) = u :: rest /\ nth (S k) units EmptyString = u).
        { destruct k as [| [| [| [| k]]]]; try lia; cbn; eauto. }
        destruct Hnth as (u & rest & -> & ->).
        rewrite convert_loop_float_step by apply (Hsafe k).
        apply Qltb_true in Hup. rewrite Hup. reflexivity.
      * apply (Hsafe O).
      * cbn. lia.
      * intros j Hj. change (chain j (chain 1 x)) with (chain (S j) x). apply Hlow. lia.
Qed.

(** ** One job *)

Section File.
Context `{Platform}.

Lemma optimize_file_replaces w source verbose s c :
  endswith source ".pdf" = true ->
  files w !! source = Some s ->
  file_size s <= max_file_size ->
  temp_path w source <> source ->
  compressor_run w source = {| gs_exit := Some 0; gs_output := Some (temp_path w source, c) |} ->
  file_size c < file_size s ->
  exists w' shown,
    optimize_file source verbose w = (Ok (Some (file_size s, file_size c)), w') /\
    trace w' = (trace w ++ prologue w source ++
                [EvGetsize (temp_path w source); EvRemove source;
                 EvRename (temp_path w source) source] ++ shown)%list /\
    Forall is_print shown /\
    files w' = <[source := c]> (delete (temp_path w source) (files w)).
Proof.
  intros Hpdf Hsrc Hmax Hne Hrun Hlt.
  assert (Hs : exists r, convert_from_bytes (file_size s) = Ok r).
  { apply convert_from_bytes_ok. unfold file_size, max_file_size in *. split; [lia |].
    eapply Z.le_lt_trans; [exact Hmax |]. vm_compute. reflexivity. }
  assert (Hc : exists r, convert_from_bytes (file_size c) = Ok r).
  { apply convert_from_bytes_ok. unfold file_size, max_file_size in *. split; [lia |].
    eapply Z.lt_trans; [exact Hlt |]. eapply Z.le_lt_trans; [exact Hmax |].
    vm_compute. reflexivity. }
  destruct Hs as [rs Hs], Hc as [rc Hc].
  unfold optimize_file. rewrite Hpdf. cbn [negb].
  unfold bind, os_getsize, unique_filename, bind, uuid4, ret, launch_minimized_process,
    clear_print, wait_or_terminate.
  cbn [files draws trace dirs cwd log tick set_files run returncode].
  rewrite Hsrc.
  change (ghostscript _ _ _) with (compressor_run w source).
  change (path_join _ _) with (temp_path w source).
  rewrite Hrun. cbn [gs_exit gs_output written returncode run].
  rewrite bool_decide_eq_true_2 by reflexivity. cbn [negb].
  cbn [files draws trace dirs cwd log tick set_files].
  rewrite lookup_insert_eq.
  fold (file_size s) (file_size c).
  destruct (Z.ltb_spec (file_size c) (file_size s)) as [_ | ?]; [| lia].
  unfold os_remove, os_rename.
  cbn [files draws trace dirs cwd log tick set_files].
  rewrite lookup_insert_ne by assumption. rewrite Hsrc.
  cbn [files draws trace dirs cwd log tick set_files].
  rewrite lookup_delete_ne by (intros E; apply Hne; symmetry; exact E).
  rewrite lookup_insert_eq.
  destruct (decide (temp_path w source = source)) as [E | _]; [contradiction |].
  rewrite lookup_delete_eq.
  assert (Hfs : <[source := c]> (delete (temp_path w source)
                   (delete source (<[temp_path w source := c]> (files w))))
                = <[source := c]> (delete (temp_path w source) (files w))).
  { apply map_eq. intros p.
    destruct (decide (p = source)) as [-> | Hp]; [rewrite !lookup_insert_eq; reflexivity |].
    rewrite !lookup_insert_ne by congruence.
    destruct (decide (p = temp_path w source)) as [-> | Hq];
      [rewrite !lookup_delete_eq; reflexivity |].
    rewrite !lookup_delete_ne by congruence. rewrite lookup_insert_ne by congruence. reflexivity. }
  destruct verbose.
  - unfold lift, ret. rewrite Hs, Hc.
    eexists.
    exists [EvPrint (clear_text (basename source ++ ": " ++ str_of_option rs ++ " ->" ++
                                 " " ++ str_of_option rc) true)].
    split; [reflexivity |].
    cbn [files draws trace dirs cwd log tick set_files].
    split; [| split; [repeat constructor | exact Hfs]].
    unfold prologue, gs_command. rewrite <- !app_assoc. reflexivity.
  - unfold ret. eexists. exists []. split; [reflexivity |].
    cbn [files draws trace dirs cwd log tick set_files].
    split; [| split; [constructor | exact Hfs]].
    unfold prologue, gs_command. rewrite <- !app_assoc. reflexivity.
Qed.

Lemma optimize_file_discards w source verbose s c :
  endswith source ".pdf" = true ->
  files w !! source = Some s ->
  temp_path w source <> source ->
  compressor_run w source = {| gs_exit := Some 0; gs_output := Some (temp_path w source, c) |} ->
  file_size s <= file_size c ->
  exists w' shown,
    optimize_file source verbose w = (Ok None, w') /\
    trace w' = (trace w ++ prologue w source ++
                [EvGetsize (temp_path w source)] ++ shown ++
                [EvRemove (temp_path w source)])%list /\
    Forall is_print shown /\
    files w' = delete (temp_path w source) (files w).
Proof.
  intros Hpdf Hsrc Hne Hrun Hge.
  unfold optimize_file. rewrite Hpdf. cbn [negb].
  unfold bind, os_getsize, unique_filename, bind, uuid4, ret, launch_minimized_process,
    clear_print, wait_or_terminate.
  cbn [files draws trace dirs cwd log tick set_files run returncode].
  rewrite Hsrc.
  change (ghostscript _ _ _) with (compressor_run w source).
  change (path_join _ _) with (temp_path w source).
  rewrite Hrun. cbn [gs_exit gs_output written returncode run].
  rewrite bool_decide_eq_true_2 by reflexivity. cbn [negb].
  cbn [files draws trace dirs cwd log tick set_files].
  rewrite lookup_insert_eq.
  fold (file_size s) (file_size c).
  destruct (Z.ltb_spec (file_size c) (file_size s)) as [? | _]; [lia |].
  unfold os_remove.
  destruct verbose; unfold ret;
    cbn [files draws trace dirs cwd log tick set_files];
    rewrite lookup_insert_eq.
  - eexists.
    exists [EvPrint (clear_text (basename source ++ ": no optimization needed") true)].
    split; [reflexivity |].
    cbn [files draws trace dirs cwd log tick set_files].
    split; [| split; [repeat constructor | apply delete_insert_eq]].
    unfold prologue, gs_command. rewrite <- !app_assoc. reflexivity.
  - eexists. exists []. split; [reflexivity |].
    cbn [files draws trace dirs cwd log tick set_files].
    split; [| split; [constructor | apply delete_insert_eq]].
    unfold prologue, gs_command. rewrite <- !app_assoc. reflexivity.
Qed.

Lemma optimize_file_failure w source verbose s :
  endswith source ".pdf" = true ->
  files w !! source = Some s ->
  gs_exit (compressor_run w source) <> Some 0 ->
  exists w',
    optimize_file source verbose w = (Ok None, w') /\
    trace w' = (trace w ++ prologue w source ++
                match gs_exit (compressor_run w source) with
                | None => [EvTerminate]
                | Some _ => []
                end)%list /\
    files w' = written (compressor_run w source) (files w).
Proof.
  intros Hpdf Hsrc Hexit.
  unfold optimize_file. rewrite Hpdf. cbn [negb].
  unfold bind, os_getsize, unique_filename, bind, uuid4, ret, launch_minimized_process,
    clear_print, wait_or_terminate.
  cbn [files draws trace dirs cwd log tick set_files run returncode].
  rewrite Hsrc.
  change (ghostscript _ _ _) with (compressor_run w source).
  change (path_join _ _) with (temp_path w source).
  destruct (gs_exit (compressor_run w source)) as [rc |] eqn:E.
  - cbn [returncode]. rewrite bool_decide_eq_false_2 by exact Hexit. cbn [negb].
    unfold ret. eexists. split; [reflexivity |].
    cbn [files draws trace dirs cwd log tick set_files]. split; [| reflexivity].
    unfold prologue, gs_command. rewrite <- !app_assoc. cbn [app]. reflexivity.
  - cbn [returncode]. rewrite bool_decide_eq_false_2 by discriminate. cbn [negb].
    unfold ret. eexists. split; [reflexivity |].
    cbn [files draws trace dirs cwd log tick set_files]. split; [| reflexivity].
    unfold prologue, gs_command. rewrite <- !app_assoc. cbn [app]. reflexivity.
Qed.

Lemma optimize_file_not_pdf path verbose w :
  endswith path ".pdf" = false ->
  optimize_file path verbose w = (Exit (ExitMsg "Not a PDF file."), w).
Proof. intros Hpdf. unfold optimize_file. rewrite Hpdf. reflexivity. Qed.

Lemma run_jobs_ok paths verbose : forall w,
  exists futures w', run_jobs paths verbose w = (Ok futures, w').
Proof.
  induction paths as [| p rest IH]; intros w; cbn [run_jobs].
  - eexists; eexists; reflexivity.
  - destruct (optimize_file p verbose w) as [future w1].
    destruct (IH w1) as (futures & w2 & ->). eexists; eexists; reflexivity.
Qed.

Lemma submitted_filter folder entries :
  submitted folder entries =
  List.map (path_join folder)
    (List.filter (fun name => endswith name ".pdf" && negb (startswith name "temp_")) entries).
Proof.
  induction entries as [| file rest IH]; [reflexivity |].
  cbn [submitted List.filter]. rewrite IH.
  destruct (startswith file "temp_"), (endswith file ".pdf"); reflexivity.
Qed.

End File.

Lemma startswith_app p s : startswith (p ++ s) p = true.
Proof.
  induction p as [| c p IH]; [destruct s; reflexivity |].
  change (String c p ++ s) with (String c (p ++ s)). cbn [startswith].
  rewrite Ascii.eqb_refl. exact IH.
Qed.

Lemma list_ascii_app s t :
  list_ascii_of_string (s ++ t) = (list_ascii_of_string s ++ list_ascii_of_string t)%list.
Proof.
  induction s as [| c s IH]; [reflexivity |].
  change (String c s ++ t) with (String c (s ++ t)).
  cbn [list_ascii_of_string]. rewrite IH. reflexivity.
Qed.

Lemma string_of_list_app l m :
  string_of_list_ascii (l ++ m)%list = string_of_list_ascii l ++ string_of_list_ascii m.
Proof.
  induction l as [| c l IH]; [reflexivity |].
  change (string_of_list_ascii ((c :: l) ++ m)%list)
    with (String c (string_of_list_ascii (l ++ m)%list)).
  rewrite IH. reflexivity.
Qed.

Lemma string_rev_app s t : string_rev (s ++ t) = string_rev t ++ string_rev s.
Proof.
  unfold string_rev. rewrite list_ascii_app, rev_app_distr, string_of_list_app. reflexivity.
Qed.

Lemma endswith_app s p : endswith (s ++ p) p = true.
Proof. unfold endswith. rewrite string_rev_app. apply startswith_app. Qed.

Lemma append_assoc (a b c : string) : (a ++ b) ++ c = a ++ (b ++ c).
Proof.
  induction a as [| x a IH]; [reflexivity |].
  change ((String x a ++ b) ++ c) with (String x ((a ++ b) ++ c)).
  rewrite IH. reflexivity.
Qed.

Lemma temp_name_shape hex :
  startswith (temp_name hex) "temp_" = true /\
  endswith (temp_name hex) ".pdf" = true.
Proof.
  unfold temp_name. split; [apply startswith_app |].
  change (" ." ++ "pdf") with (" " ++ ".pdf").
  rewrite <- !append_assoc. apply endswith_app.
Qed.

(** ** The totals *)

Lemma collect_totals results : forall ti tf,
  collect (List.map Ok results) ti tf =
  Ok (ti + total_initial results, tf + total_final results).
Proof.
  unfold total_initial, total_final.
  induction results as [| [[i f] |] rest IH]; intros ti tf; cbn [List.map collect obind].
  - cbn. f_equal. f_equal; lia.
  - rewrite IH. cbn. f_equal. f_equal; lia.
  - rewrite IH. reflexivity.
Qed.

Lemma totals_perm results completed :
  Permutation results completed ->
  total_initial results = total_initial completed /\ total_final results = total_final completed.
Proof.
  unfold total_initial, total_final.
  induction 1 as [| [[i f] |] l l' _ IH | [[i f] |] [[i' f'] |] l | l l' l'' _ IH1 _ IH2];
    cbn in *; lia.
Qed.

Lemma collect_skips_absent before : forall after ti tf,
  collect (before ++ Ok None :: after)%list ti tf = collect (before ++ after)%list ti tf.
Proof.
  induction before as [| future rest IH]; intros after ti tf; [reflexivity |].
  cbn [app collect]. destruct future as [[[i f] |] | e | x]; cbn [obind]; auto.
Qed.

Lemma collect_all_absent futures :
  Forall (fun future => future = Ok None) futures -> collect futures 0 0 = Ok (0, 0).
Proof.
  induction 1 as [| future rest -> _ IH]; [reflexivity |]. cbn [collect obind]. exact IH.
Qed.

Lemma folder_totals_of_results `{Platform} w folder verbose results w1 :
  completion_is_permutation ->
  batch_results folder verbose w = (Ok (List.map Ok results), w1) ->
  folder_totals folder verbose w = (Ok (total_initial results, total_final results), w1).
Proof.
  intros Hperm Hbatch. unfold folder_totals. unfold batch_results in Hbatch.
  unfold bind in *.
  destruct (os_listdir folder w) as [[entries | e | x] w0]; try discriminate.
  destruct (run_jobs (submitted folder entries) verbose w0) as [[futures | e | x] w1'];
    try discriminate.
  injection Hbatch as -> ->. unfold lift.
  pose proof (Hperm _ (List.map Ok results : list job_result)) as Hp.
  apply Permutation_sym, Permutation_map_inv in Hp.
  destruct Hp as (completed & -> & Hp).
  rewrite collect_totals. destruct (totals_perm _ _ Hp) as [-> ->]. reflexivity.
Qed.

(* ===================================================================== *)
(** * Part IV: the properties of the specification *)
(* ===================================================================== *)

(** ** C1: a smaller output replaces the source

    Claim C1.  When the compressor succeeds and its output is strictly
    smaller than the source, [optimize_file] first deletes the source file
    and then renames the temporary file to the source path, in this order,
    and returns the pair of the source size and the output size.
    Afterwards the source path holds the compressed output, whose size is
    the final size returned; the temporary path is free and no other file
    has changed. *)
Theorem optimize_file_replaces_source `{Platform} w source verbose s c :
  endswith source ".pdf" = true ->
  files w !! source = Some s ->
  file_size s <= max_file_size ->
  temp_path w source <> source ->
  compressor_run w source =
    {| gs_exit := Some 0; gs_output := Some (temp_path w source, c) |} ->
  file_size c < file_size s ->
  exists w' shown,
    optimize_file source verbose w = (Ok (Some (file_size s, file_size c)), w') /\
    trace w' = (trace w ++ prologue w source ++
                [EvGetsize (temp_path w source); EvRemove source;
                 EvRename (temp_path w source) source] ++ shown)%list /\
    Forall is_print shown /\
    files w' !! source = Some c /\
    files w' !! temp_path w source = None /\
    (forall p, p <> source -> p <> temp_path w source -> files w' !! p = files w !! p).
Proof.
  intros Hpdf Hsrc Hmax Hne Hrun Hlt.
  destruct (optimize_file_replaces w source verbose s c Hpdf Hsrc Hmax Hne Hrun Hlt)
    as (w' & shown & Hres & Htrace & Hshown & Hfiles).
  exists w', shown. repeat split; try assumption; rewrite Hfiles.
  - apply lookup_insert_eq.
  - rewrite lookup_insert_ne by congruence. apply lookup_delete_eq.
  - intros p Hp Hq. rewrite lookup_insert_ne by congruence. apply lookup_delete_ne. congruence.
Qed.

Lemma optimize_file_replaces_source_witness :
  exists w' shown,
    @optimize_file shrinking_platform "C:\docs\a.pdf" false single_world
      = (Ok (Some (file_size (blob 100), file_size (blob 40))), w') /\
    trace w' = (trace single_world ++
                @prologue shrinking_platform single_world "C:\docs\a.pdf" ++
                [EvGetsize (@temp_path shrinking_platform single_world "C:\docs\a.pdf");
                 EvRemove "C:\docs\a.pdf";
                 EvRename (@temp_path shrinking_platform single_world "C:\docs\a.pdf")
                   "C:\docs\a.pdf"] ++ shown)%list /\
    Forall is_print shown /\
    files w' !! "C:\docs\a.pdf" = Some (blob 40) /\
    files w' !! @temp_path shrinking_platform single_world "C:\docs\a.pdf" = None /\
    (forall p, p <> "C:\docs\a.pdf" ->
               p <> @temp_path shrinking_platform single_world "C:\docs\a.pdf" ->
               files w' !! p = files single_world !! p).
Proof.
  apply (@optimize_file_replaces_source shrinking_platform single_world
           "C:\docs\a.pdf" false (blob 100) (blob 40)).
  - vm_compute. reflexivity.
  - vm_compute. reflexivity.
  - vm_compute. discriminate.
  - vm_compute. discriminate.
  - vm_compute. reflexivity.
  - vm_compute. reflexivity.
Defined.

(** ** C2: an output that is not smaller is discarded

    Claim C2.  When the compressor succeeds and its output is at least as
    large as the source, [optimize_file] deletes the temporary file and
    returns [None]; the source file keeps its bytes, no file is left at the
    temporary path, and no other file has changed. *)
Theorem optimize_file_keeps_source `{Platform} w source verbose s c :
  endswith source ".pdf" = true ->
  files w !! source = Some s ->
  temp_path w source <> source ->
  compressor_run w source =
    {| gs_exit := Some 0; gs_output := Some (temp_path w source, c) |} ->
  file_size s <= file_size c ->
  exists w' shown,
    optimize_file source verbose w = (Ok None, w') /\
    trace w' = (trace w ++ prologue w source ++
                [EvGetsize (temp_path w source)] ++ shown ++
                [EvRemove (temp_path w source)])%list /\
    Forall is_print shown /\
    files w' !! source = Some s /\
    files w' !! temp_path w source = None /\
    (forall p, p <> temp_path w source -> files w' !! p = files w !! p).
Proof.
  intros Hpdf Hsrc Hne Hrun Hge.
  destruct (optimize_file_discards w source verbose s c Hpdf Hsrc Hne Hrun Hge)
    as (w' & shown & Hres & Htrace & Hshown & Hfiles).
  exists w', shown. repeat split; try assumption; rewrite Hfiles.
  - rewrite lookup_delete_ne by congruence. exact Hsrc.
  - apply lookup_delete_eq.
  - intros p Hp. apply lookup_delete_ne. congruence.
Qed.

Lemma optimize_file_keeps_source_witness :
  exists w' shown,
    @optimize_file idle_platform "C:\docs\a.pdf" true single_world = (Ok None, w') /\
    trace w' = (trace single_world ++
                @prologue idle_platform single_world "C:\docs\a.pdf" ++
                [EvGetsize (@temp_path idle_platform single_world "C:\docs\a.pdf")] ++
                shown ++
                [EvRemove (@temp_path idle_platform single_world "C:\docs\a.pdf")])%list /\
    Forall is_print shown /\
    files w' !! "C:\docs\a.pdf" = Some (blob 100) /\
    files w' !! @temp_path idle_platform single_world "C:\docs\a.pdf" = None /\
    (forall p, p <> @temp_path idle_platform single_world "C:\docs\a.pdf" ->
               files w' !! p = files single_world !! p).
Proof.
  apply (@optimize_file_keeps_source idle_platform single_world
           "C:\docs\a.pdf" true (blob 100) (blob 100)).
  - vm_compute. reflexivity.
  - vm_compute. reflexivity.
  - vm_compute. discriminate.
  - vm_compute. reflexivity.
  - vm_compute. discriminate.
Defined.

(** ** C3: a failed job and its temporary file

    Claim C3 asks that a job whose compressor fails returns [None] and
    leaves no temporary file.  The job returns [None], but the script
    returns right after the test of the return code, and the file the
    compressor has written stays: here the compressor exits with status 1
    after writing 7 bytes, and the directory then lists the temporary file
    next to the source. *)
Theorem failed_job_leaves_temp_file :
  fst (@optimize_file failing_platform "C:\docs\a.pdf" false single_world) = Ok None /\
  files (snd (@optimize_file failing_platform "C:\docs\a.pdf" false single_world))
    !! ("C:\docs\" ++ first_temp_name) = Some (blob 7) /\
  fst (@os_listdir failing_platform "C:\docs"
         (snd (@optimize_file failing_platform "C:\docs\a.pdf" false single_world)))
    = Ok ["a.pdf"; first_temp_name].
Proof. vm_compute. repeat split; reflexivity. Qed.

(** ** C4: the totals are the sums over the present results

    Claim C4.  Whatever the order of completion, the totals of a batch are
    the sums of the initial and of the final sizes over the results that
    are present; an absent result adds nothing.  For PDFs of 100000, 200000
    and 50000 bytes that the compressor brings to 40000, 150000 and 50000
    bytes, the totals are 300000 and 190000 and the ratio printed is
    36.67%. *)
Theorem batch_totals_sum_present_results :
  (forall (P : Platform) w folder verbose results w1,
     completion_is_permutation ->
     batch_results folder verbose w = (Ok (List.map Ok results), w1) ->
     folder_totals folder verbose w
       = (Ok (total_initial results, total_final results), w1)) /\
  (fst (@batch_results scenario_platform "C:\docs" false scenario_world)
     = Ok [Ok None; Ok (Some (100000, 40000)); Ok (Some (200000, 150000))] /\
   fst (@folder_totals scenario_platform "C:\docs" false scenario_world)
     = Ok (300000, 190000) /\
   compression_ratio 300000 190000 = Ok "36.67" /\
   List.last
     (printed (snd (@optimize_folder scenario_platform "C:\docs" false scenario_world)))
     EmptyString
     = clear_text "300.00 KB -> 190.00 KB, Compression ratio = 36.67%" true).
Proof.
  split.
  - intros P w folder verbose results w1. apply folder_totals_of_results.
  - vm_compute. repeat split; reflexivity.
Qed.

Lemma batch_totals_sum_present_results_witness :
  @folder_totals shrinking_platform "C:\docs" false single_world
  = (Ok (total_initial [Some (100, 40)], total_final [Some (100, 40)]),
     snd (@batch_results shrinking_platform "C:\docs" false single_world)).
Proof.
  apply (proj1 batch_totals_sum_present_results shrinking_platform single_world
           "C:\docs" false [Some (100, 40)]).
  - intros A l. apply Permutation_refl.
  - vm_compute. reflexivity.
Defined.

(** ** C5: no present result, division by zero

    Claim C5.  When no job of a batch returns a present result, the total
    initial size is zero and the ratio of the summary divides by zero:
    [optimize_folder] prints the heading of the summary and ends in
    [ZeroDivisionError]. *)
Theorem empty_batch_divides_by_zero `{Platform} w folder verbose futures w1 :
  completion_is_permutation ->
  batch_results folder verbose w = (Ok futures, w1) ->
  Forall (fun future => future = Ok None) futures ->
  optimize_folder folder verbose w
    = (Raise ZeroDivisionError,
       log (EvPrint (clear_text "Final compression stats:" true)) w1) /\
  summary 0 0 = Raise ZeroDivisionError.
Proof.
  intros Hperm Hbatch Hnone. split; [| vm_compute; reflexivity].
  assert (Htot : folder_totals folder verbose w = (Ok (0, 0), w1)).
  { unfold folder_totals. unfold batch_results in Hbatch. unfold bind in *.
    destruct (os_listdir folder w) as [[entries | e | x] w0]; try discriminate.
    destruct (run_jobs (submitted folder entries) verbose w0) as [[fs | e | x] w1'];
      try discriminate.
    injection Hbatch as -> ->. unfold lift.
    rewrite collect_all_absent; [reflexivity |].
    eapply Permutation_Forall; [apply Hperm | exact Hnone]. }
  unfold optimize_folder. unfold bind at 1. rewrite Htot.
  unfold bind, clear_print, lift. cbn [fst snd].
  change (summary 0 0) with (@Raise string ZeroDivisionError). reflexivity.
Qed.

Lemma empty_batch_divides_by_zero_witness :
  @optimize_folder idle_platform "C:\docs" false single_world
    = (Raise ZeroDivisionError,
       log (EvPrint (clear_text "Final compression stats:" true))
         (snd (@batch_results idle_platform "C:\docs" false single_world))) /\
  summary 0 0 = Raise ZeroDivisionError.
Proof.
  apply (@empty_batch_divides_by_zero idle_platform single_world "C:\docs" false [Ok None]).
  - intros A l. apply Permutation_refl.
  - vm_compute. reflexivity.
  - repeat constructor.
Defined.

(** ** C6: a job that runs into the time limit

    Claim C6.  When the compressor has not exited after the 60 seconds the
    script waits, the script terminates it and the job returns [None]; the
    script itself changes no file (the files are as the killed process left
    them), the jobs after it run on and keep their results, and the loop
    over the futures skips the absent result: the totals are those of the
    other results alone. *)
Theorem timed_out_job_is_absent `{Platform} w source verbose s rest :
  endswith source ".pdf" = true ->
  files w !! source = Some s ->
  gs_exit (compressor_run w source) = None ->
  exists w',
    optimize_file source verbose w = (Ok None, w') /\
    trace w' = (trace w ++ prologue w source ++ [EvTerminate])%list /\
    files w' = written (compressor_run w source) (files w) /\
    (exists futures w2,
       run_jobs rest verbose w' = (Ok futures, w2) /\
       run_jobs (source :: rest) verbose w = (Ok (Ok None :: futures), w2)) /\
    (forall before after ti tf,
       collect (before ++ Ok None :: after)%list ti tf = collect (before ++ after)%list ti tf).
Proof.
  intros Hpdf Hsrc Hexit.
  destruct (optimize_file_failure w source verbose s Hpdf Hsrc) as (w' & Hres & Htrace & Hfiles).
  { rewrite Hexit. discriminate. }
  rewrite Hexit in Htrace.
  exists w'. repeat split; try assumption.
  - destruct (run_jobs_ok rest verbose w') as (futures & w2 & Hrest).
    exists futures, w2. split; [exact Hrest |].
    cbn [run_jobs]. rewrite Hres, Hrest. reflexivity.
  - intros before after ti tf. apply collect_skips_absent.
Qed.

Lemma timed_out_job_is_absent_witness :
  exists w',
    @optimize_file hanging_platform "C:\docs\a.pdf" false single_world = (Ok None, w') /\
    trace w' = (trace single_world ++ @prologue hanging_platform single_world "C:\docs\a.pdf"
                ++ [EvTerminate])%list /\
    files w' = written (@compressor_run hanging_platform single_world "C:\docs\a.pdf")
                 (files single_world) /\
    (exists futures w2,
       @run_jobs hanging_platform [] false w' = (Ok futures, w2) /\
       @run_jobs hanging_platform ["C:\docs\a.pdf"] false single_world
         = (Ok (Ok None :: futures), w2)) /\
    (forall before after ti tf,
       collect (before ++ Ok None :: after)%list ti tf = collect (before ++ after)%list ti tf).
Proof.
  apply (@timed_out_job_is_absent hanging_platform single_world "C:\docs\a.pdf" false
           (blob 100) []).
  - vm_compute. reflexivity.
  - vm_compute. reflexivity.
  - vm_compute. reflexivity.
Defined.

(** ** C7: the candidates of a directory

    Claim C7.  The paths [optimize_folder] submits are those of the entries
    whose name ends in [.pdf] and does not start with [temp_], in the order
    of the listing.  Every name [unique_filename] builds for a temporary
    file starts with [temp_] (and ends in [.pdf]), so it is never among the
    candidates, whatever the listing holds. *)
Theorem candidates_exclude_temp_files `{Platform} folder entries :
  submitted folder entries = List.map (path_join folder) (candidates entries) /\
  (forall name,
     In name (candidates entries) <->
     In name entries /\ endswith name ".pdf" = true /\ startswith name "temp_" = false) /\
  (forall w,
     exists name,
       unique_filename "pdf" "temp_" w = (Ok name, tick w) /\
       name = temp_name (uuid4_hex (draws w)) /\
       startswith name "temp_" = true /\
       endswith name ".pdf" = true /\
       ~ In name (candidates entries)).
Proof.
  split; [apply submitted_filter |].
  assert (Hin : forall name,
     In name (candidates entries) <->
     In name entries /\ endswith name ".pdf" = true /\ startswith name "temp_" = false).
  { intros name. unfold candidates. rewrite filter_In.
    rewrite Bool.andb_true_iff, Bool.negb_true_iff. tauto. }
  split; [exact Hin |].
  intros w. exists (temp_name (uuid4_hex (draws w))).
  destruct (temp_name_shape (uuid4_hex (draws w))) as [Hpre Hsuf].
  repeat split; try assumption.
  intros Habs. apply Hin in Habs. destruct Habs as (_ & _ & Hno). congruence.
Qed.

(** ** C8: the unit [convert_from_bytes] selects

    Claim C8 as the specification words it, that the unit selected is the
    largest one in which the value is below 1000, fails: for 950 bytes the
    unit is [bytes], although the value in [KB] is below 1000 as well. *)
Lemma largest_unit_reading_fails : ~ selects_largest_unit_below_1000 950.
Proof.
  intros (k & v & s & Hk & Hv & Hlt & Hmax & Hs & Hc).
  destruct k as [| [| [| [| [| k]]]]]; try lia.
  - (* "bytes" is selected, yet the value in KB is below 1000 too *)
    assert (E : exists v', value_in_unit 1 (PInt 950) = Ok v' /\ py_lt v' (PInt 1000) = true).
    { eexists. split; [vm_compute; reflexivity | vm_compute; reflexivity]. }
    destruct E as (v' & E1 & E2).
    rewrite (Hmax 1%nat v' ltac:(lia) E1) in E2. discriminate.
  - vm_compute in Hv. injection Hv as <-. vm_compute in Hs. injection Hs as <-.
    vm_compute in Hc. discriminate.
  - vm_compute in Hv. injection Hv as <-. vm_compute in Hs. injection Hs as <-.
    vm_compute in Hc. discriminate.
  - vm_compute in Hv. injection Hv as <-. vm_compute in Hs. injection Hs as <-.
    vm_compute in Hc. discriminate.
  - vm_compute in Hv. injection Hv as <-. vm_compute in Hs. injection Hs as <-.
    vm_compute in Hc. discriminate.
Qed.

(** Claim C8, amended.  For a byte count from 0 to below [1000^5],
    [convert_from_bytes] divides by 1000 until the value is below 1000 and
    so selects the first, that is the smallest, of the units bytes, KB, MB,
    GB, TB in which the value is below 1000: the [k]-th unit for a count
    from [1000^k] to below [1000^(k+1)].  The value is printed with two
    decimals.  So 950 gives [950.00 bytes], 1500 gives [1.50 KB] and
    2500000 gives [2.50 MB]. *)
Theorem convert_from_bytes_first_unit_below_1000 :
  (forall bytes k,
     (k < 5)%nat ->
     unit_floor k <= bytes < 1000 ^ (Z.of_nat k + 1) ->
     exists v s,
       value_in_unit k (PInt bytes) = Ok v /\
       py_lt v (PInt 1000) = true /\
       (forall j, (j < k)%nat ->
          exists v', value_in_unit j (PInt bytes) = Ok v' /\ py_lt v' (PInt 1000) = false) /\
       format_2f v = Ok s /\
       two_decimals s /\
       convert_from_bytes bytes = Ok (Some (s ++ " " ++ nth k units EmptyString))) /\
  convert_from_bytes 950 = Ok (Some "950.00 bytes") /\
  convert_from_bytes 1500 = Ok (Some "1.50 KB") /\
  convert_from_bytes 2500000 = Ok (Some "2.50 MB").
Proof.
  split; [exact unit_selection |].
  vm_compute. repeat split; reflexivity.
Qed.

Lemma convert_from_bytes_first_unit_below_1000_witness :
  exists v s,
    value_in_unit 1 (PInt 1500) = Ok v /\
    py_lt v (PInt 1000) = true /\
    (forall j, (j < 1)%nat ->
       exists v', value_in_unit j (PInt 1500) = Ok v' /\ py_lt v' (PInt 1000) = false) /\
    format_2f v = Ok s /\
    two_decimals s /\
    convert_from_bytes 1500 = Ok (Some (s ++ " " ++ nth 1 units EmptyString)).
Proof.
  apply (proj1 convert_from_bytes_first_unit_below_1000 1500 1%nat).
  - lia.
  - vm_compute. split; [discriminate | reflexivity].
Defined.

(** ** C9: a path that does not end in [.pdf]

    Claim C9.  On a path that does not end in [.pdf], [optimize_file] ends
    the process through [sys.exit] with the diagnostic [Not a PDF file.]
    and status 1, before anything else: the world is unchanged, so no file
    was looked at, no compressor was started and nothing was printed.  The
    main loop passes the exit on for a file given on the command line. *)
Theorem optimize_file_rejects_non_pdf `{Platform} path verbose w :
  endswith path ".pdf" = false ->
  optimize_file path verbose w = (Exit (ExitMsg "Not a PDF file."), w) /\
  process_end (fst (optimize_file path verbose w)) = (1, Some "Not a PDF file.") /\
  (forall rest flag,
     path <> "." -> path ∉ dirs w -> is_Some (files w !! path) ->
     main_loop (path :: rest) flag w = (Exit (ExitMsg "Not a PDF file."), w)).
Proof.
  intros Hpdf. pose proof (optimize_file_not_pdf path) as Hexit.
  split; [apply Hexit, Hpdf |]. split; [rewrite Hexit by exact Hpdf; reflexivity |].
  intros rest flag Hdot Hdir Hfile.
  cbn [main_loop]. unfold bind at 1. unfold main_item.
  apply String.eqb_neq in Hdot. rewrite Hdot.
  unfold bind at 1. unfold os_path_isdir. rewrite bool_decide_eq_false_2 by exact Hdir.
  unfold bind at 1. unfold os_path_isfile. rewrite bool_decide_eq_true_2 by exact Hfile.
  unfold bind. rewrite Hexit by exact Hpdf. reflexivity.
Qed.

Lemma optimize_file_rejects_non_pdf_witness :
  @optimize_file idle_platform "C:\docs\a.txt" true single_world
    = (Exit (ExitMsg "Not a PDF file."), single_world) /\
  process_end (fst (@optimize_file idle_platform "C:\docs\a.txt" true single_world))
    = (1, Some "Not a PDF file.") /\
  (forall rest flag,
     "C:\docs\a.txt" <> "." -> "C:\docs\a.txt" ∉ dirs single_world ->
     is_Some (files single_world !! "C:\docs\a.txt") ->
     @main_loop idle_platform ("C:\docs\a.txt" :: rest) flag single_world
       = (Exit (ExitMsg "Not a PDF file."), single_world)).
Proof.
  apply (@optimize_file_rejects_non_pdf idle_platform "C:\docs\a.txt" true single_world).
  vm_compute. reflexivity.
Defined.

(** ** C10: no unit from [1000^5] bytes on

    Claim C10.  For a byte count of [1000^5] or more, [convert_from_bytes]
    runs through all five units without finding the value below 1000 and
    returns [None], not a text; the summary of such totals shows the name
    of [None] in place of a size.  (The count is taken below [2^1024],
    beyond which the first division has no float to return.) *)
Theorem convert_from_bytes_none_from_1000_pow_5 :
  (forall bytes,
     1000 ^ 5 <= bytes -> bytes < 2 ^ 1024 -> convert_from_bytes bytes = Ok None) /\
  summary (3 * 1000 ^ 5) (1000 ^ 5) = Ok "None -> None, Compression ratio = 66.67%".
Proof.
  split; [| vm_compute; reflexivity].
  intros bytes Hlo Hhi.
  assert (H1000 : 1000 <= bytes) by (eapply Z.le_trans; [| exact Hlo]; vm_compute; discriminate).
  rewrite convert_from_bytes_big by lia.
  rewrite (convert_loop_skip 4).
  - cbn [skipn tl units convert_loop]. reflexivity.
  - cbn [chain]. apply wide_step, wide_of_Z. lia.
  - cbn. lia.
  - intros j Hj. change (chain j (chain 1 (inject_Z bytes))) with (chain (S j) (inject_Z bytes)).
    destruct j as [| [| [| [| j]]]]; try lia;
      (apply (chain_lower _ (1000 ^ 5));
       [split; [vm_compute; discriminate | exact Hlo] | vm_compute; reflexivity]).
Qed.

Lemma convert_from_bytes_none_from_1000_pow_5_witness :
  convert_from_bytes (1000 ^ 5) = Ok None.
Proof.
  apply (proj1 convert_from_bytes_none_from_1000_pow_5 (1000 ^ 5)).
  - vm_compute. discriminate.
  - vm_compute. reflexivity.
Defined.

(* ===================================================================== *)
(** * Part V: further properties of the script *)
(* ===================================================================== *)

(** ** Case analysis of a job *)

Ltac world_simpl :=
  cbn [files draws trace dirs cwd log tick set_files run returncode fst snd] in *.

(** Splits on the innermost test of the goal. *)
Ltac step_job :=
  match goal with
  | |- context [match ?x with _ => _ end] =>
      lazymatch x with
      | context [match _ with _ => _ end] => fail
      | _ => destruct x eqn:?
      end
  | |- context [if ?x then _ else _] =>
      lazymatch x with
      | context [if _ then _ else _] => fail
      | context [match _ with _ => _ end] => fail
      | _ => destruct x eqn:?
      end
  end; world_simpl.

Ltac open_job :=
  unfold optimize_file, bind, os_getsize, unique_filename, bind, uuid4, ret, sys_exit,
    launch_minimized_process, clear_print, wait_or_terminate, os_remove, os_rename, lift;
  world_simpl.

(** Brings the facts a case has collected to a normal form; [Hconv] says
    that the sizes at hand have a text. *)
Ltac tidy_job Hconv :=
  repeat match goal with
  | E : Z.ltb _ _ = true |- _ => apply Z.ltb_lt in E
  | E : <[_:=_]> _ !! _ = _ |- _ =>
      first [rewrite lookup_insert_eq in E | rewrite lookup_insert_ne in E by congruence]
  | E : delete _ _ !! _ = _ |- _ =>
      first [rewrite lookup_delete_eq in E | rewrite lookup_delete_ne in E by congruence]
  | E : Some _ = Some _ |- _ => injection E as E; subst
  | E1 : ?m = Some ?a, E2 : ?m = Some ?b |- _ =>
      assert (b = a) by congruence; subst b; clear E2
  | E : Some _ = None |- _ => discriminate E
  | E : None = Some _ |- _ => discriminate E
  | E : convert_from_bytes ?n = Raise _ |- _ =>
      exfalso; destruct (Hconv n) as [? Hr]; [unfold file_size in *; lia | congruence]
  | E : convert_from_bytes ?n = Exit _ |- _ =>
      exfalso; destruct (Hconv n) as [? Hr]; [unfold file_size in *; lia | congruence]
  end.

Lemma sizes_have_text s :
  file_size s <= max_file_size ->
  forall n, 0 <= n <= file_size s -> exists r, convert_from_bytes n = Ok r.
Proof.
  intros Hmax n Hn. apply convert_from_bytes_ok. unfold max_file_size in Hmax.
  split; [lia |]. eapply Z.le_lt_trans; [apply Hn |].
  eapply Z.le_lt_trans; [exact Hmax |]. vm_compute. reflexivity.
Qed.

Lemma optimize_file_result_bounds `{Platform} w source verbose initial final w' :
  optimize_file source verbose w = (Ok (Some (initial, final)), w') ->
  0 <= final < initial.
Proof.
  open_job. repeat step_job; intros E; try discriminate.
  all: injection E as <- <- <-.
  all: split; [lia | apply Z.ltb_lt; assumption].
Qed.

(** ** X1: a present result is an improvement *)

(** X1.  Whatever the platform does, a pair that [optimize_file] returns is
    the size of the source when the job started and a final size that is
    strictly smaller (and not negative): the only [return] with a pair
    stands under the test [output_file_size < source_file_size]. *)
Theorem present_result_is_improvement `{Platform} w source verbose initial final w' :
  optimize_file source verbose w = (Ok (Some (initial, final)), w') ->
  0 <= final < initial /\
  exists s, files w !! source = Some s /\ initial = file_size s.
Proof.
  open_job. repeat step_job; intros E; try discriminate.
  all: injection E as <- <- <-.
  all: split; [split; [lia | apply Z.ltb_lt; assumption] | eexists; split; reflexivity].
Qed.

Lemma present_result_is_improvement_witness :
  0 <= 40 < 100 /\
  exists s, files single_world !! "C:\docs\a.pdf" = Some s /\ 100 = file_size s.
Proof.
  apply (@present_result_is_improvement shrinking_platform single_world "C:\docs\a.pdf"
           false 100 40
           (snd (@optimize_file shrinking_platform "C:\docs\a.pdf" false single_world))).
  vm_compute. reflexivity.
Defined.

(** ** X2: a job leaves the other files alone *)

(** X2.  However a job ends (result, exception or exit), a path other than
    the source and the temporary path, and that the compressor does not
    write, holds after the job what it held before; the directories and
    the working directory are unchanged.  The script removes and renames
    only at these two paths. *)
Theorem optimize_file_frame `{Platform} w source verbose p :
  p <> source ->
  p <> temp_path w source ->
  (forall c, gs_output (compressor_run w source) <> Some (p, c)) ->
  files (snd (optimize_file source verbose w)) !! p = files w !! p /\
  dirs (snd (optimize_file source verbose w)) = dirs w /\
  cwd (snd (optimize_file source verbose w)) = cwd w.
Proof.
  intros Hsrc Htmp Hgs. open_job.
  destruct (endswith source ".pdf"); cbn [negb]; [| auto].
  destruct (files w !! source) as [s |] eqn:Hs; world_simpl; [| auto].
  change (ghostscript _ _ _) with (compressor_run w source).
  change (path_join _ _) with (temp_path w source).
  unfold written.
  destruct (compressor_run w source) as [ex [[path c] |]]; cbn [gs_exit gs_output] in *.
  - assert (Hp : path <> p) by (intros ->; apply (Hgs c); reflexivity).
    repeat step_job; repeat split; try reflexivity;
      rewrite ?lookup_insert_ne, ?lookup_delete_ne, ?lookup_insert_ne by congruence;
      try reflexivity.
    all: rewrite ?lookup_delete_ne by congruence; rewrite ?lookup_insert_ne by congruence;
      reflexivity.
  - repeat step_job; repeat split; try reflexivity;
      rewrite ?lookup_insert_ne, ?lookup_delete_ne, ?lookup_insert_ne by congruence;
      try reflexivity.
Qed.

Lemma optimize_file_frame_witness :
  files (snd (@optimize_file shrinking_platform "C:\docs\a.pdf" true single_world))
    !! "C:\docs\other.pdf" = files single_world !! "C:\docs\other.pdf" /\
  dirs (snd (@optimize_file shrinking_platform "C:\docs\a.pdf" true single_world))
    = dirs single_world /\
  cwd (snd (@optimize_file shrinking_platform "C:\docs\a.pdf" true single_world))
    = cwd single_world.
Proof.
  apply (@optimize_file_frame shrinking_platform single_world "C:\docs\a.pdf" true
           "C:\docs\other.pdf").
  - vm_compute. discriminate.
  - vm_compute. discriminate.
  - intros c. vm_compute. discriminate.
Defined.

(** ** X3: a source that does not exist *)



(** ** X4: exit status 0 without an output file *)

(** X4.  When the compressor exits with status 0 but has written no file,
    and none is at the temporary path, the script takes the run for a
    success and [os.path.getsize] of the temporary path raises
    [FileNotFoundError]; no file has changed. *)
Theorem optimize_file_no_output `{Platform} w source verbose s :
  endswith source ".pdf" = true ->
  files w !! source = Some s ->
  compressor_run w source = {| gs_exit := Some 0; gs_output := None |} ->
  files w !! temp_path w source = None ->
  exists w',
    optimize_file source verbose w = (Raise (FileNotFoundError (temp_path w source)), w') /\
    trace w' = (trace w ++ prologue w source ++ [EvGetsize (temp_path w source)])%list /\
    files w' = files w.
Proof.
  intros Hpdf Hsrc Hrun Htmp. unfold optimize_file. rewrite Hpdf. cbn [negb]. open_job.
  rewrite Hsrc. world_simpl.
  change (ghostscript _ _ _) with (compressor_run w source).
  change (path_join _ _) with (temp_path w source).
  rewrite Hrun. cbn [gs_exit gs_output written returncode run].
  rewrite bool_decide_eq_true_2 by reflexivity. cbn [negb]. world_simpl.
  rewrite Htmp. eexists. split; [reflexivity |]. world_simpl. split; [| reflexivity].
  unfold prologue, gs_command. rewrite <- !app_assoc. reflexivity.
Qed.

Lemma optimize_file_no_output_witness :
  exists w',
    @optimize_file silent_platform "C:\docs\a.pdf" false single_world
    = (Raise (FileNotFoundError (@temp_path silent_platform single_world "C:\docs\a.pdf")),
       w') /\
    trace w' = (trace single_world ++ @prologue silent_platform single_world "C:\docs\a.pdf"
                ++ [EvGetsize (@temp_path silent_platform single_world "C:\docs\a.pdf")])%list
    /\ files w' = files single_world.
Proof.
  apply (@optimize_file_no_output silent_platform single_world "C:\docs\a.pdf" false
           (blob 100)).
  - vm_compute. reflexivity.
  - vm_compute. reflexivity.
  - vm_compute. reflexivity.
  - vm_compute. reflexivity.
Defined.

(** ** X5: a failed job removes nothing *)

(** X5.  For any exit status other than 0, and for a timeout, the job
    returns [None] after [getsize], the spawn and the wait (and the
    [terminate] of a timeout): it calls neither [os.remove] nor
    [os.rename].  The files are as the compressor left them, so a file it
    has written is still there. *)
Theorem failed_job_removes_nothing `{Platform} w source verbose s :
  endswith source ".pdf" = true ->
  files w !! source = Some s ->
  gs_exit (compressor_run w source) <> Some 0 ->
  exists w',
    optimize_file source verbose w = (Ok None, w') /\
    system_calls (trace w') =
      (system_calls (trace w) ++
       [EvGetsize source; EvSpawn (gs_command (temp_path w source) source); EvWait 60] ++
       match gs_exit (compressor_run w source) with
       | None => [EvTerminate]
       | Some _ => []
       end)%list /\
    files w' = written (compressor_run w source) (files w) /\
    (forall path c, gs_output (compressor_run w source) = Some (path, c) ->
                    files w' !! path = Some c).
Proof.
  intros Hpdf Hsrc Hexit.
  destruct (optimize_file_failure w source verbose s Hpdf Hsrc Hexit)
    as (w' & Hres & Htrace & Hfiles).
  exists w'. repeat split; try assumption.
  - rewrite Htrace. unfold system_calls, prologue. rewrite !List.filter_app.
    destruct (gs_exit (compressor_run w source)); reflexivity.
  - intros path c Hout. rewrite Hfiles. unfold written. rewrite Hout.
    apply lookup_insert_eq.
Qed.

Lemma failed_job_removes_nothing_witness :
  exists w',
    @optimize_file failing_platform "C:\docs\a.pdf" true single_world = (Ok None, w') /\
    system_calls (trace w') =
      (system_calls (trace single_world) ++
       [EvGetsize "C:\docs\a.pdf";
        EvSpawn (gs_command (@temp_path failing_platform single_world "C:\docs\a.pdf")
                   "C:\docs\a.pdf");
        EvWait 60] ++
       match gs_exit (@compressor_run failing_platform single_world "C:\docs\a.pdf") with
       | None => [EvTerminate]
       | Some _ => []
       end)%list /\
    files w' = written (@compressor_run failing_platform single_world "C:\docs\a.pdf")
                 (files single_world) /\
    (forall path c,
       gs_output (@compressor_run failing_platform single_world "C:\docs\a.pdf")
         = Some (path, c) ->
       files w' !! path = Some c).
Proof.
  apply (@failed_job_removes_nothing failing_platform single_world "C:\docs\a.pdf" true
           (blob 100)).
  - vm_compute. reflexivity.
  - vm_compute. reflexivity.
  - vm_compute. discriminate.
Defined.

(** ** X6: the source path never ends up empty *)



(** ** X7: the flag [verbose] only adds prints *)

(** X7.  For a source within the sizes of the platform, a job with
    [verbose] set and one without return the same, leave the same files and
    make the same calls apart from prints. *)
Theorem verbose_only_prints `{Platform} w source :
  (forall s, files w !! source = Some s -> file_size s <= max_file_size) ->
  fst (optimize_file source true w) = fst (optimize_file source false w) /\
  files (snd (optimize_file source true w)) = files (snd (optimize_file source false w)) /\
  system_calls (trace (snd (optimize_file source true w)))
  = system_calls (trace (snd (optimize_file source false w))).
Proof.
  intros Hmax. unfold optimize_file.
  destruct (endswith source ".pdf"); cbn [negb]; [| auto].
  open_job. destruct (files w !! source) as [s |] eqn:Hsrc; world_simpl; [| auto].
  pose proof (sizes_have_text s (Hmax s eq_refl)) as Hconv.
  fold (file_size s). unfold system_calls.
  repeat step_job; tidy_job Hconv;
    (split; [reflexivity | split; [reflexivity |]]);
    rewrite !List.filter_app; cbn [List.filter is_printb negb];
    rewrite ?app_nil_r; reflexivity.
Qed.

Lemma verbose_only_prints_witness :
  fst (@optimize_file shrinking_platform "C:\docs\a.pdf" true single_world)
  = fst (@optimize_file shrinking_platform "C:\docs\a.pdf" false single_world) /\
  files (snd (@optimize_file shrinking_platform "C:\docs\a.pdf" true single_world))
  = files (snd (@optimize_file shrinking_platform "C:\docs\a.pdf" false single_world)) /\
  system_calls
    (trace (snd (@optimize_file shrinking_platform "C:\docs\a.pdf" true single_world)))
  = system_calls
      (trace (snd (@optimize_file shrinking_platform "C:\docs\a.pdf" false single_world))).
Proof.
  apply (@verbose_only_prints shrinking_platform single_world "C:\docs\a.pdf").
  intros s E. vm_compute in E. injection E as <-. vm_compute. discriminate.
Defined.

(** ** X8: temporary names differ when the identifiers do *)

Lemma append_inj_l p : forall s t, p ++ s = p ++ t -> s = t.
Proof.
  induction p as [| c p IH]; intros s t E; [exact E |].
  change (String c (p ++ s) = String c (p ++ t)) in E. injection E as E. apply IH, E.
Qed.

Lemma string_rev_involutive s : string_rev (string_rev s) = s.
Proof.
  unfold string_rev. rewrite list_ascii_of_string_of_list_ascii, rev_involutive.
  apply string_of_list_ascii_of_string.
Qed.

Lemma append_inj_r s t q : s ++ q = t ++ q -> s = t.
Proof.
  intros E. apply (f_equal string_rev) in E. rewrite !string_rev_app in E.
  apply append_inj_l in E. apply (f_equal string_rev) in E.
  rewrite !string_rev_involutive in E. exact E.
Qed.

(** X8.  Two calls of [unique_filename] in a row, with the same extension
    and prefix, give different names whenever [uuid4] gives different
    identifiers: the name holds the identifier whole, between the prefix
    and the extension. *)
Theorem unique_filenames_differ `{Platform} ext prefix w name1 w1 name2 w2 :
  uuid4_hex (draws w) <> uuid4_hex (S (draws w)) ->
  unique_filename ext prefix w = (Ok name1, w1) ->
  unique_filename ext prefix w1 = (Ok name2, w2) ->
  name1 <> name2.
Proof.
  intros Hfresh E1 E2. unfold unique_filename, bind, uuid4, ret in *.
  injection E1 as <- <-. cbn [draws tick] in E2. injection E2 as <- _.
  intros E. apply Hfresh.
  apply (append_inj_l prefix), (append_inj_l " ") in E.
  apply (append_inj_r _ _ (" ." ++ ext)). exact E.
Qed.

Lemma unique_filenames_differ_witness :
  first_temp_name <> "temp_ 00000000000000000000000000000001 .pdf".
Proof.
  apply (@unique_filenames_differ idle_platform "pdf" "temp_" single_world
           first_temp_name (tick single_world)
           "temp_ 00000000000000000000000000000001 .pdf" (tick (tick single_world))).
  - vm_compute. discriminate.
  - vm_compute. reflexivity.
  - vm_compute. reflexivity.
Defined.

(** ** X9: byte counts below 1000 *)

Lemma small_texts : forallb small_text_ok (seq 0 1000) = true.
Proof. vm_compute. reflexivity. Qed.

(** X9.  A byte count from 0 to 999 is shown as it is, followed by two
    zeros and the unit [bytes]: the conversion to a float and the rounding
    to two decimals lose nothing. *)
Theorem convert_from_bytes_below_1000 bytes :
  0 <= bytes < 1000 ->
  convert_from_bytes bytes = Ok (Some (decimal bytes ++ ".00 bytes")).
Proof.
  intros Hb. pose proof small_texts as Hall. rewrite forallb_forall in Hall.
  assert (Hin : In (Z.to_nat bytes) (seq 0 1000)) by (apply in_seq; lia).
  specialize (Hall (Z.to_nat bytes) Hin). unfold small_text_ok in Hall.
  rewrite Z2Nat.id in Hall by lia.
  destruct (convert_from_bytes bytes) as [[s |] | e | x]; try discriminate Hall.
  apply String.eqb_eq in Hall. rewrite Hall. reflexivity.
Qed.

Lemma convert_from_bytes_below_1000_witness :
  convert_from_bytes 7 = Ok (Some (decimal 7 ++ ".00 bytes")).
Proof. apply (convert_from_bytes_below_1000 7). lia. Defined.

(** ** X10: the compression ratio *)

Section Ratio.
Local Open Scope Q_scope.

Lemma round64_below q b :
  0 <= q -> q <= b -> Qle_bool (round64 b) b = true -> 0 <= round64 q <= b.
Proof.
  intros H0 Hb Hr. split; [apply round64_nonneg, H0 |].
  eapply Qle_trans; [apply round64_mono; eassumption | apply Qle_bool_iff, Hr].
Qed.

Lemma float_of_Q_below q b :
  0 <= q -> q <= b -> Qle_bool (round64 b) b = true -> Qle_bool b (pow2 1015) = true ->
  float_of_Q q = Fin (round64 q) /\ 0 <= round64 q <= b.
Proof.
  intros H0 Hb Hr Hs. pose proof (round64_below q b H0 Hb Hr) as Hq.
  split; [| exact Hq]. unfold float_of_Q.
  rewrite safe_in_range; [reflexivity |].
  apply Qle_bool_iff in Hs. unfold safe. lra.
Qed.

Lemma quotient_in_unit tf ti :
  (0 <= tf < ti)%Z -> 0 <= inject_Z tf / inject_Z ti /\ inject_Z tf / inject_Z ti <= 1.
Proof.
  intros [H0 H1].
  assert (Hti : 0 < inject_Z ti) by (change 0 with (inject_Z 0); rewrite <- Zlt_Qlt; lia).
  assert (Htf : 0 <= inject_Z tf) by (change 0 with (inject_Z 0); rewrite <- Zle_Qle; lia).
  assert (Hle : inject_Z tf <= inject_Z ti) by (rewrite <- Zle_Qle; lia).
  split.
  - apply Qle_shift_div_l; [exact Hti | lra].
  - apply Qle_shift_div_r; [exact Hti | lra].
Qed.

Lemma compression_ratio_range ti tf :
  (0 <= tf < ti)%Z ->
  exists r, 0 <= r <= 100 /\ compression_ratio ti tf = Ok (fixed2 r).
Proof.
  intros Ht. destruct (quotient_in_unit tf ti Ht) as [Hq0 Hq1].
  unfold compression_ratio, py_truediv.
  destruct (Z.eqb_spec ti 0) as [-> | _]; [lia |].
  destruct (float_of_Q_below (inject_Z tf / inject_Z ti) 1 Hq0 Hq1) as [-> [Hx0 Hx1]];
    [vm_compute; reflexivity | vm_compute; reflexivity |].
  set (x := round64 (inject_Z tf / inject_Z ti)) in *.
  cbn [obind]. unfold py_sub. cbn [to_float obind].
  change (float_of_int 1) with (Ok (Fin 1)). cbn [obind float_sub].
  destruct (float_of_Q_below (1 - x) 1) as [-> [Hy0 Hy1]];
    [lra | lra | vm_compute; reflexivity | vm_compute; reflexivity |].
  set (y := round64 (1 - x)) in *.
  unfold py_mul. cbn [to_float obind].
  change (float_of_int 100) with (Ok (Fin 100)). cbn [obind float_mul].
  destruct (float_of_Q_below (100 * y) 100) as [-> [Hr0 Hr1]];
    [lra | lra | vm_compute; reflexivity | vm_compute; reflexivity |].
  exists (round64 (100 * y)). split; [split; assumption |].
  unfold format_2f. cbn [to_float obind]. rewrite format_nonneg by assumption. reflexivity.
Qed.

End Ratio.

(** X10.  For totals with a final size that is not negative and below the
    initial size, the ratio [100 * (1 - final / initial)] raises nothing,
    whatever the magnitude of the totals: it is a float from 0 to 100 and
    is printed with two decimals. *)
Theorem compression_ratio_in_range ti tf :
  0 <= tf < ti ->
  exists r text,
    (0 <= r <= 100)%Q /\
    compression_ratio ti tf = Ok text /\
    text = fixed2 r /\
    two_decimals text.
Proof.
  intros Ht. destruct (compression_ratio_range ti tf Ht) as (r & Hr & Hratio).
  exists r, (fixed2 r). repeat split; try assumption; try apply Hr.
  apply two_decimals_fixed2.
Qed.

Lemma compression_ratio_in_range_witness :
  exists r text,
    (0 <= r <= 100)%Q /\
    compression_ratio 300000 190000 = Ok text /\
    text = fixed2 r /\
    two_decimals text.
Proof. apply (compression_ratio_in_range 300000 190000). lia. Defined.

(** ** X11 to X14: the batch *)

Section Batch.
Context `{Platform}.

Lemma run_jobs_improvements paths verbose : forall w futures w',
  run_jobs paths verbose w = (Ok futures, w') ->
  Forall improvement futures /\ length futures = length paths.
Proof.
  induction paths as [| p rest IH]; intros w futures w' Hrun; cbn [run_jobs] in Hrun.
  - injection Hrun as <- <-. split; [constructor | reflexivity].
  - destruct (optimize_file p verbose w) as [future w1] eqn:Hjob.
    destruct (run_jobs rest verbose w1) as [[fs | e | x] w2] eqn:Hrest; try discriminate.
    injection Hrun as <- <-. destruct (IH _ _ _ Hrest) as [Hall Hlen].
    split; [| cbn; rewrite Hlen; reflexivity].
    constructor; [| exact Hall].
    intros initial final ->.
    apply (optimize_file_result_bounds _ _ _ _ _ _ Hjob).
Qed.

Lemma collect_improvements futures : forall ti tf ti' tf',
  Forall improvement futures ->
  collect futures ti tf = Ok (ti', tf') ->
  0 <= tf' - tf <= ti' - ti /\ (ti' = ti \/ tf' - tf < ti' - ti).
Proof.
  induction futures as [| future rest IH]; intros ti tf ti' tf' Hall Hc; cbn [collect] in Hc.
  - injection Hc as <- <-. lia.
  - inversion Hall as [| ? ? Hgood Hrest]; subst.
    destruct future as [[[i f] |] | e | x]; cbn [obind] in Hc; try discriminate.
    + specialize (Hgood i f eq_refl). specialize (IH _ _ _ _ Hrest Hc). lia.
    + apply (IH _ _ _ _ Hrest Hc).
Qed.

Lemma folder_totals_inv folder verbose w totals w1 :
  folder_totals folder verbose w = (Ok totals, w1) ->
  exists futures,
    batch_results folder verbose w = (Ok futures, w1) /\
    collect (as_completed _ futures) 0 0 = Ok totals.
Proof.
  unfold folder_totals, batch_results, bind, lift.
  destruct (os_listdir folder w) as [[entries | e | x] w0]; try discriminate.
  destruct (run_jobs (submitted folder entries) verbose w0) as [[futures | e | x] w2];
    try discriminate.
  intros E. exists futures. split; [congruence |].
  destruct (collect (as_completed _ futures) 0 0); congruence.
Qed.

Lemma batch_results_improvements folder verbose w futures w1 :
  batch_results folder verbose w = (Ok futures, w1) -> Forall improvement futures.
Proof.
  unfold batch_results, bind.
  destruct (os_listdir folder w) as [[entries | e | x] w0]; try discriminate.
  intros Hrun. apply (run_jobs_improvements _ _ _ _ _ Hrun).
Qed.

Lemma folder_totals_bounds folder verbose w ti tf w1 :
  completion_is_permutation ->
  folder_totals folder verbose w = (Ok (ti, tf), w1) ->
  0 <= tf <= ti /\ (ti = 0 \/ tf < ti).
Proof.
  intros Hperm Htot.
  destruct (folder_totals_inv _ _ _ _ _ Htot) as (futures & Hbatch & Hcollect).
  pose proof (batch_results_improvements _ _ _ _ _ Hbatch) as Hall.
  assert (Hall' : Forall improvement (as_completed _ futures)).
  { eapply Permutation_Forall; [apply Hperm | exact Hall]. }
  pose proof (collect_improvements _ _ _ _ _ Hall' Hcollect). lia.
Qed.

Lemma summary_ok ti tf :
  0 <= tf < ti -> ti < 2 ^ 1024 ->
  exists before after r,
    convert_from_bytes ti = Ok before /\
    convert_from_bytes tf = Ok after /\
    (0 <= r <= 100)%Q /\
    summary ti tf = Ok (str_of_option before ++ " ->" ++ " " ++ str_of_option after ++ "," ++
                        " Compression ratio = " ++ fixed2 r ++ "%").
Proof.
  intros Ht Hmax.
  destruct (convert_from_bytes_ok ti) as [before Hb]; [lia |].
  destruct (convert_from_bytes_ok tf) as [after Ha]; [lia |].
  destruct (compression_ratio_range ti tf Ht) as (r & Hr & Hratio).
  exists before, after, r. repeat split; try assumption; try apply Hr.
  unfold summary. rewrite Hb, Ha, Hratio. reflexivity.
Qed.

Lemma collect_first_raise before : forall e after ti tf,
  Forall returned before ->
  collect (before ++ Raise e :: after)%list ti tf = Raise e.
Proof.
  induction before as [| future rest IH]; intros e after ti tf Hall; [reflexivity |].
  inversion Hall as [| ? ? [result ->] Hrest]; subst.
  cbn [app collect obind]. destruct result as [[i f] |]; apply IH; assumption.
Qed.

End Batch.

(** X11.  The totals of a batch are never negative and the total final
    size never exceeds the total initial size; it is strictly below it
    unless both are zero, that is unless no job returned a pair. *)
Theorem folder_totals_shrink `{Platform} folder verbose w ti tf w1 :
  completion_is_permutation ->
  folder_totals folder verbose w = (Ok (ti, tf), w1) ->
  0 <= tf <= ti /\ (ti = 0 /\ tf = 0 \/ tf < ti).
Proof.
  intros Hperm Htot.
  destruct (folder_totals_bounds _ _ _ _ _ _ Hperm Htot) as [Hb [-> | Hlt]].
  - split; [exact Hb |]. left. lia.
  - split; [exact Hb |]. right. exact Hlt.
Qed.

Lemma folder_totals_shrink_witness :
  0 <= 40 <= 100 /\ (100 = 0 /\ 40 = 0 \/ 40 < 100).
Proof.
  apply (@folder_totals_shrink shrinking_platform "C:\docs" false single_world 100 40
           (snd (@folder_totals shrinking_platform "C:\docs" false single_world))).
  - intros A l. apply Permutation_refl.
  - vm_compute. reflexivity.
Defined.

(** X12.  When the total initial size of a batch is not zero (and within
    the range of floats), [optimize_folder] ends normally: after the jobs
    it prints the heading and then the line of the summary, and the
    division of the ratio does not fault.  With C5 this says that the
    summary faults exactly when no job returned a pair. *)
Theorem optimize_folder_prints_summary `{Platform} folder verbose w ti tf w1 :
  completion_is_permutation ->
  folder_totals folder verbose w = (Ok (ti, tf), w1) ->
  0 < ti < 2 ^ 1024 ->
  exists text,
    summary ti tf = Ok text /\
    optimize_folder folder verbose w
      = (Ok tt, log (EvPrint (clear_text text true))
                  (log (EvPrint (clear_text "Final compression stats:" true)) w1)).
Proof.
  intros Hperm Htot Hti.
  destruct (folder_totals_bounds _ _ _ _ _ _ Hperm Htot) as [Hb Hlt].
  destruct (summary_ok ti tf) as (before & after & r & _ & _ & _ & Hsum); [lia | lia |].
  eexists. split; [exact Hsum |].
  unfold optimize_folder. unfold bind at 1. rewrite Htot.
  unfold bind, clear_print, lift. cbn [fst snd]. rewrite Hsum. reflexivity.
Qed.

Lemma optimize_folder_prints_summary_witness :
  exists text,
    summary 100 40 = Ok text /\
    @optimize_folder shrinking_platform "C:\docs" false single_world
      = (Ok tt, log (EvPrint (clear_text text true))
                  (log (EvPrint (clear_text "Final compression stats:" true))
                     (snd (@folder_totals shrinking_platform "C:\docs" false
                             single_world)))).
Proof.
  apply (@optimize_folder_prints_summary shrinking_platform "C:\docs" false single_world
           100 40).
  - intros A l. apply Permutation_refl.
  - vm_compute. reflexivity.
  - split; [lia | vm_compute; reflexivity].
Defined.

(** X13.  An exception of a job does not stop the batch when it is raised:
    it stays in the future of the job and the other jobs run.  It is raised
    again by the loop over the futures, at the first future in the order of
    completion that holds one; [optimize_folder] then ends with it and
    prints no summary, and what the jobs did to the files stays. *)
Theorem job_exception_aborts_summary `{Platform} folder verbose w futures w1 before e after :
  batch_results folder verbose w = (Ok futures, w1) ->
  as_completed _ futures = (before ++ Raise e :: after)%list ->
  Forall returned before ->
  optimize_folder folder verbose w = (Raise e, w1).
Proof.
  intros Hbatch Hdone Hbefore.
  unfold optimize_folder, folder_totals. unfold batch_results in Hbatch. unfold bind in *.
  destruct (os_listdir folder w) as [[entries | e' | x] w0]; try discriminate.
  destruct (run_jobs (submitted folder entries) verbose w0) as [[fs | e' | x] w2];
    try discriminate.
  injection Hbatch as -> ->. unfold lift. rewrite Hdone.
  rewrite collect_first_raise by assumption. reflexivity.
Qed.

Lemma job_exception_aborts_summary_witness :
  @optimize_folder silent_platform "C:\docs" false single_world
  = (Raise (FileNotFoundError ("C:\docs\" ++ first_temp_name)),
     snd (@batch_results silent_platform "C:\docs" false single_world)).
Proof.
  apply (@job_exception_aborts_summary silent_platform "C:\docs" false single_world
           [Raise (FileNotFoundError ("C:\docs\" ++ first_temp_name))]
           (snd (@batch_results silent_platform "C:\docs" false single_world))
           [] (FileNotFoundError ("C:\docs\" ++ first_temp_name)) []).
  - vm_compute. reflexivity.
  - vm_compute. reflexivity.
  - constructor.
Defined.

(** X14.  A batch holds one future for each candidate of the listing, no
    more and no fewer: a job that raises or exits still leaves its
    future, and an entry that is no candidate gets none. *)
Theorem one_future_per_candidate `{Platform} folder verbose w futures w1 :
  batch_results folder verbose w = (Ok futures, w1) ->
  exists entries,
    fst (os_listdir folder w) = Ok entries /\
    length futures = length (candidates entries).
Proof.
  unfold batch_results, bind.
  destruct (os_listdir folder w) as [[entries | e | x] w0]; try discriminate.
  intros Hrun. exists entries. split; [reflexivity |].
  destruct (run_jobs_improvements _ _ _ _ _ Hrun) as [_ ->].
  rewrite submitted_filter. unfold candidates. apply length_map.
Qed.

Lemma one_future_per_candidate_witness :
  exists entries,
    fst (@os_listdir failing_platform "C:\docs" single_world) = Ok entries /\
    length [@Ok (option (Z * Z)) None] = length (candidates entries).
Proof.
  apply (@one_future_per_candidate failing_platform "C:\docs" false single_world
           [Ok None]
           (snd (@batch_results failing_platform "C:\docs" false single_world))).
  vm_compute. reflexivity.
Defined.

(** ** X15 and X16: the loop over the arguments *)

Lemma main_loop_app `{Platform} items1 : forall items2 verbose w,
  main_loop (items1 ++ items2)%list verbose w
  = bind (main_loop items1 verbose) (fun _ => main_loop items2 verbose) w.
Proof.
  induction items1 as [| item rest IH]; intros items2 verbose w; [reflexivity |].
  cbn [app main_loop]. unfold bind.
  destruct (main_item item verbose w) as [[[] | e | x] w1]; try reflexivity.
  rewrite IH. unfold bind. reflexivity.
Qed.

(** X15.  The arguments are not checked beforehand: the paths before an
    invalid one are processed, and at the path that is neither [.], nor a
    directory, nor a file the script exits with its diagnostic and status
    1; the paths after it are never looked at. *)
Theorem invalid_path_stops_run `{Platform} done bad rest verbose w w1 :
  main_loop done verbose w = (Ok tt, w1) ->
  bad <> "." -> bad ∉ dirs w1 -> files w1 !! bad = None ->
  main_loop (done ++ bad :: rest)%list verbose w
  = (Exit (ExitMsg "Not a valid path to PDF or folder containing PDFs."), w1) /\
  process_end (fst (main_loop (done ++ bad :: rest)%list verbose w))
  = (1, Some "Not a valid path to PDF or folder containing PDFs.").
Proof.
  intros Hdone Hdot Hdir Hfile.
  assert (Hrun : main_loop (done ++ bad :: rest)%list verbose w
                 = (Exit (ExitMsg "Not a valid path to PDF or folder containing PDFs."), w1)).
  { rewrite main_loop_app. unfold bind at 1. rewrite Hdone.
    cbn [main_loop]. unfold bind at 1. unfold main_item.
    apply String.eqb_neq in Hdot. rewrite Hdot.
    unfold bind at 1. unfold os_path_isdir. rewrite bool_decide_eq_false_2 by exact Hdir.
    unfold bind at 1. unfold os_path_isfile.
    rewrite bool_decide_eq_false_2 by (rewrite Hfile; intros [? ?]; discriminate).
    reflexivity. }
  split; [exact Hrun | rewrite Hrun; reflexivity].
Qed.

Lemma invalid_path_stops_run_witness :
  @main_loop shrinking_platform (["C:\docs\a.pdf"] ++ "C:\nothing" :: ["C:\docs"])%list
    false single_world
  = (Exit (ExitMsg "Not a valid path to PDF or folder containing PDFs."),
     snd (@main_loop shrinking_platform ["C:\docs\a.pdf"] false single_world)) /\
  process_end
    (fst (@main_loop shrinking_platform
            (["C:\docs\a.pdf"] ++ "C:\nothing" :: ["C:\docs"])%list false single_world))
  = (1, Some "Not a valid path to PDF or folder containing PDFs.").
Proof.
  apply (@invalid_path_stops_run shrinking_platform ["C:\docs\a.pdf"] "C:\nothing"
           ["C:\docs"] false single_world).
  - vm_compute. reflexivity.
  - discriminate.
  - vm_compute. discriminate.
  - vm_compute. reflexivity.
Defined.

(** X16.  The argument [.] is not taken for a directory: it is handed to
    [optimize_file] as the path of the working directory, and unless that
    path ends in [.pdf] the script exits with [Not a PDF file.] without
    looking at any file, whatever the directory holds. *)
Theorem dot_is_not_a_folder `{Platform} rest verbose w :
  endswith (cwd w) ".pdf" = false ->
  main_loop ("." :: rest) verbose w = (Exit (ExitMsg "Not a PDF file."), w).
Proof.
  intros Hcwd. cbn [main_loop]. unfold bind at 1. unfold main_item.
  change (String.eqb "." ".") with true. cbv iota.
  unfold bind, os_getcwd. rewrite optimize_file_not_pdf by exact Hcwd. reflexivity.
Qed.

Lemma dot_is_not_a_folder_witness :
  @main_loop shrinking_platform ("." :: ["C:\docs"]) true single_world
  = (Exit (ExitMsg "Not a PDF file."), single_world).
Proof.
  apply (@dot_is_not_a_folder shrinking_platform ["C:\docs"] true single_world).
  vm_compute. reflexivity.
Defined.

(** ** X17: the number shown in KB and above *)

Lemma chain_at_least j lo b t :
  (0 <= lo <= b)%Z ->
  Qle_bool t (chain j (inject_Z lo)) = true ->
  (t <= chain j (inject_Z b))%Q.
Proof.
  intros Hb Hc. apply Qle_bool_iff in Hc.
  eapply Qle_trans; [exact Hc |].
  apply chain_mono; [change 0%Q with (inject_Z 0) |]; rewrite <- Zle_Qle; lia.
Qed.

(** X17.  In the units KB, MB, GB and TB the value that is formatted is at
    least 1 and below 1000: the unit selected is also the largest one in
    which the value reaches 1.  The text is rounded after the unit is
    chosen, so it can read 1000.00, as for 999999 bytes. *)
Theorem shown_value_is_at_least_one :
  (forall bytes k,
     (1 <= k < 5)%nat ->
     1000 ^ Z.of_nat k <= bytes < 1000 ^ (Z.of_nat k + 1) ->
     exists v,
       value_in_unit k (PInt bytes) = Ok (PFloat (Fin v)) /\
       (1 <= v < 1000)%Q /\
       convert_from_bytes bytes = Ok (Some (fixed2 v ++ " " ++ nth k units EmptyString))) /\
  convert_from_bytes 999999 = Ok (Some "1000.00 KB").
Proof.
  split; [| vm_compute; reflexivity].
  intros bytes k Hk Hb.
  assert (Hpos : 0 <= 1000 ^ Z.of_nat k) by (apply Z.pow_nonneg; lia).
  assert (Hmax : bytes < 2 ^ 1024).
  { destruct Hb as [_ Hb]. eapply Z.lt_le_trans; [exact Hb |].
    apply Z.le_trans with (1000 ^ 5); [apply Z.pow_le_mono_r; lia |].
    vm_compute. discriminate. }
  destruct (unit_thresholds k bytes Hk Hb) as [_ Hup].
  destruct k as [| k]; [lia |].
  exists (chain (S k) (inject_Z bytes)).
  assert (Hval : value_in_unit (S k) (PInt bytes)
                 = Ok (PFloat (Fin (chain (S k) (inject_Z bytes)))))
    by (apply value_in_unit_int; lia).
  split; [exact Hval |]. split.
  - split; [| exact Hup].
    destruct k as [| [| [| [| k]]]]; try lia; cbn in Hb;
      match type of Hb with
      | ?lo <= _ < _ => apply (chain_at_least _ lo); [lia | vm_compute; reflexivity]
      end.
  - destruct (unit_selection bytes (S k)) as (v & s & Hv & _ & _ & Hs & _ & Hconv);
      [lia | exact Hb |].
    rewrite Hval in Hv. injection Hv as <-.
    cbn [format_2f to_float obind] in Hs. rewrite format_nonneg in Hs.
    + injection Hs as <-. exact Hconv.
    + apply (chain_nonneg (S k) (inject_Z bytes)).
      change 0%Q with (inject_Z 0). rewrite <- Zle_Qle. lia.
Qed.

Lemma shown_value_is_at_least_one_witness :
  exists v,
    value_in_unit 1 (PInt 1500) = Ok (PFloat (Fin v)) /\
    (1 <= v < 1000)%Q /\
    convert_from_bytes 1500 = Ok (Some (fixed2 v ++ " " ++ nth 1 units EmptyString)).
Proof.
  apply (proj1 shown_value_is_at_least_one 1500 1%nat).
  - lia.
  - vm_compute. split; [discriminate | reflexivity].
Defined.
